(** * ToiletSeatCloser: the control logic of [MicroPython/main.py]

    A shallow embedding of the firmware's control logic: the button
    interrupt handler and its three-mode cycle, the presence detector, the
    stepper sequence with its abort path, and the dispatcher loop of
    [main].

    Conventions of the embedding.
    - The module-level globals of [main.py] are the fields of [state].
    - The level of every GPIO line is kept in a finite map from the GPIO
      number to its level; a line that was never written has no entry.
    - Everything the program does to the outside world (pin writes, sleeps,
      prints, display calls, [exit]) is logged in [trace], newest first.
    - Python [int] is [Z]; Python [float] is an exact rational [Q].
    - A function of the program is a computation [M A]: it takes the
      globals and either returns a value with the new globals, or stops the
      program through [exit]. *)

From Stdlib Require Import ZArith QArith Qabs String Lia Lqa.
From stdpp Require Import base option list gmap.

Local Open Scope Z_scope.

(** ** Calibration constants (lines 15-23) *)

Definition action_after_seconds : Z := 60.
Definition brightness_threshold : Z := 25000.
Definition motion_threshold : Z := 5.
Definition polling_interval_presence : Z := 1.
Definition polling_interval_standby : Z := 5.
Definition step_count : Z := 2048.
Definition step_sleep_close : Q := 3 # 1000.
Definition step_sleep_open : Q := 2 # 1000.

(** ** Pins (lines 29-42, 76): a pin object is its GPIO number *)

Definition pin_hcsr04_trigger : nat := 14%nat.
Definition pin_motor_1 : nat := 18%nat.
Definition pin_motor_2 : nat := 19%nat.
Definition pin_motor_3 : nat := 20%nat.
Definition pin_motor_4 : nat := 21%nat.

Definition step_sequence : list (list Z) :=
  [ [1;0;0;0];
    [0;1;0;0];
    [0;0;1;0];
    [0;0;0;1] ].

Definition motor_pins : list nat :=
  [pin_motor_1; pin_motor_2; pin_motor_3; pin_motor_4].

(** ** Observable effects *)

Inductive font := ubuntu_mono_15 | ubuntu_mono_20.

Inductive event :=
| EPin (gpio : nat) (level : bool)        (* Pin.value(v), Pin.low(), Pin.high() *)
| ESleep (seconds : Q)                    (* utime.sleep *)
| ESleepUs (us : Z)                       (* utime.sleep_us *)
| EPrint (text : string)                  (* print *)
| EOledText (f : font) (text : string) (pos : option (Z * Z))
| EOledShow                               (* oled.show() *)
| EOledPoweroff                           (* oled.poweroff() *)
| EExit (code : Z).                       (* exit(code) *)

(** ** Globals *)

Record state := mkState {
  mode_debug : bool;                (* line 51 *)
  mode_manual : bool;               (* line 52 *)
  button_pushed : bool;             (* line 83 *)
  mode_switch : bool;               (* line 84 *)
  motor_retract_steps : Z;          (* line 70 *)
  previous_distance : Q;            (* line 20 *)
  levels : gmap nat bool;           (* output level of each GPIO line *)
  trace : list event                (* newest event first *)
}.

(** The globals as the module leaves them before [main()] is called. *)
Definition boot : state :=
  {| mode_debug := false; mode_manual := false;
     button_pushed := false; mode_switch := false;
     motor_retract_steps := 0;
     previous_distance := inject_Z 165;
     levels := ∅; trace := [] |}.

Definition set_mode_debug (b : bool) (s : state) : state :=
  mkState b (mode_manual s) (button_pushed s) (mode_switch s)
          (motor_retract_steps s) (previous_distance s) (levels s) (trace s).
Definition set_mode_manual (b : bool) (s : state) : state :=
  mkState (mode_debug s) b (button_pushed s) (mode_switch s)
          (motor_retract_steps s) (previous_distance s) (levels s) (trace s).
Definition set_button_pushed (b : bool) (s : state) : state :=
  mkState (mode_debug s) (mode_manual s) b (mode_switch s)
          (motor_retract_steps s) (previous_distance s) (levels s) (trace s).
Definition set_mode_switch (b : bool) (s : state) : state :=
  mkState (mode_debug s) (mode_manual s) (button_pushed s) b
          (motor_retract_steps s) (previous_distance s) (levels s) (trace s).
Definition set_motor_retract_steps (n : Z) (s : state) : state :=
  mkState (mode_debug s) (mode_manual s) (button_pushed s) (mode_switch s)
          n (previous_distance s) (levels s) (trace s).
Definition set_previous_distance (d : Q) (s : state) : state :=
  mkState (mode_debug s) (mode_manual s) (button_pushed s) (mode_switch s)
          (motor_retract_steps s) d (levels s) (trace s).
Definition set_levels (m : gmap nat bool) (s : state) : state :=
  mkState (mode_debug s) (mode_manual s) (button_pushed s) (mode_switch s)
          (motor_retract_steps s) (previous_distance s) m (trace s).
Definition log (e : event) (s : state) : state :=
  mkState (mode_debug s) (mode_manual s) (button_pushed s) (mode_switch s)
          (motor_retract_steps s) (previous_distance s) (levels s)
          (e :: trace s).

(** The events of a run in the order they happened. *)
Definition history (s : state) : list event := rev (trace s).

(** ** The monad of the program: globals, and [exit] *)

Inductive outcome (A : Type) :=
| Ret (a : A) (s : state)         (* the call returned [a] *)
| Exit (code : Z) (s : state).    (* the program stopped in [exit(code)] *)
Arguments Ret {A} a s.
Arguments Exit {A} code s.

Definition M (A : Type) : Type := state -> outcome A.

Global Instance M_ret : MRet M := fun A a s => Ret a s.
Global Instance M_bind : MBind M := fun A B k m s =>
  match m s with
  | Ret a s' => k a s'
  | Exit c s' => Exit c s'
  end.

Definition get {A} (f : state -> A) : M A := fun s => Ret (f s) s.
Definition modify (f : state -> state) : M unit := fun s => Ret tt (f s).
Definition exit {A} (code : Z) : M A := fun s => Exit code (log (EExit code) s).
Definition emit (e : event) : M unit := modify (log e).

(** The globals a computation ends in, whether it returned or exited. *)
Definition final {A} (o : outcome A) : state :=
  match o with Ret _ s => s | Exit _ s => s end.
Definition returned {A} (o : outcome A) : option A :=
  match o with Ret a _ => Some a | Exit _ _ => None end.

(** [for x in xs: body(x)], without [break]. *)
Fixpoint for_each {A} (xs : list A) (body : A -> M unit) : M unit :=
  match xs with
  | [] => mret tt
  | x :: xs' => body x ;; for_each xs' body
  end.

(** ** Pin and display primitives *)

Definition pin_value (gpio : nat) (v : Z) : M unit :=
  let level := negb (v =? 0) in
  modify (fun s => log (EPin gpio level) (set_levels (<[gpio := level]> (levels s)) s)).
Definition pin_low (gpio : nat) : M unit := pin_value gpio 0.
Definition pin_high (gpio : nat) : M unit := pin_value gpio 1.

Definition print (text : string) : M unit := emit (EPrint text).
Definition oled_show : M unit := emit EOledShow.
Definition oled_poweroff : M unit := emit EOledPoweroff.
Definition write15_text (text : string) (pos : option (Z * Z)) : M unit :=
  emit (EOledText ubuntu_mono_15 text pos).
Definition write20_text (text : string) (pos : option (Z * Z)) : M unit :=
  emit (EOledText ubuntu_mono_20 text pos).
Definition sleep (seconds : Q) : M unit := emit (ESleep seconds).
Definition sleep_us (us : Z) : M unit := emit (ESleepUs us).

(** ** [motor_cleanup] (lines 154-156) *)

Definition motor_cleanup : M unit :=
  for_each (seq 0 (length motor_pins))
    (fun pin => match motor_pins !! pin with
                | Some p => pin_low p
                | None => mret tt      (* IndexError; not reachable inside the range *)
                end).

(** ** [button_interrupt] (lines 85-111) *)

Definition button_interrupt : M unit :=
  modify (set_button_pushed true);;
  d ← get mode_debug;
  m ← get mode_manual;
  if negb d && negb m then
    (* switch from AUTO to MANUAL *)
    modify (set_mode_manual true);;
    modify (set_mode_switch true)
  else if negb d && m then
    (* switch from MANUAL to DEBUG *)
    modify (set_mode_debug true);;
    modify (set_mode_manual false);;
    modify (set_mode_switch true)
  else if d && negb m then
    (* switch from DEBUG to AUTO *)
    modify (set_mode_debug false);;
    modify (set_mode_manual false);;
    modify (set_mode_switch true)
  else
    (* defensive programming *)
    motor_cleanup;;
    write15_text "State machine error" None;;
    oled_show;;
    print "State machine error";;
    exit 1.

(** [n] button edges in a row, with nothing of the main flow in between. *)
Fixpoint button_edges (n : nat) : M unit :=
  match n with
  | O => mret tt
  | S n' => button_interrupt ;; button_edges n'
  end.

(** The operating mode encoded by the two mode flags (lines 47-52). *)
Inductive operating_mode := AUTOMATIC | MANUAL | DEBUG.

Definition mode_of (s : state) : option operating_mode :=
  match mode_debug s, mode_manual s with
  | false, false => Some AUTOMATIC
  | false, true => Some MANUAL
  | true, false => Some DEBUG
  | true, true => None
  end.

Definition mode_cycle : list operating_mode := [AUTOMATIC; MANUAL; DEBUG].

(** ** Sensors (lines 135-152)

    What the two sensors give in one poll.  [measure_distance] pulses the
    trigger line and then busy-waits on the echo line; the two waits and the
    conversion of the pulse width to centimetres (line 150) are the
    environment's: [echo_cm] is the value the call returns. *)

Record sensors := mkSensors {
  adc_u16 : Z;       (* pin_sfh300_adc.read_u16() *)
  echo_cm : Q        (* the distance line 150 computes *)
}.

Definition measure_brightness (env : sensors) : M Z :=
  mret (adc_u16 env).

Definition measure_distance (env : sensors) : M Q :=
  pin_low pin_hcsr04_trigger;;
  sleep_us 2;;
  pin_high pin_hcsr04_trigger;;
  sleep_us 5;;
  pin_low pin_hcsr04_trigger;;
  mret (echo_cm env).

(** Python's [x < y] and [x > y] on numbers. *)
Definition Qltb (x y : Q) : bool := negb (Qle_bool y x).
Definition Qgtb (x y : Q) : bool := Qltb y x.

Definition py_bool (b : bool) : string :=
  if b then "True" else "False".

(** ** [detect_presence] (lines 113-128) *)

Definition detect_presence (env : sensors) : M bool :=
  brightness ← measure_brightness env;
  let brightness_detected := brightness >? brightness_threshold in
  distance ← measure_distance env;
  previous ← get previous_distance;
  let motion_detected :=
    Qgtb distance (previous + inject_Z motion_threshold)
    || Qltb distance (previous - inject_Z motion_threshold) in
  let presence_detected := brightness_detected || motion_detected in
  modify (set_previous_distance distance);;
  print ("Presence detected:  " ++ py_bool presence_detected);;
  mret presence_detected.

(** ** [show_something] (lines 130-133) *)

Definition show_something : M unit :=
  write20_text "Hello" (Some (15, 0));;
  write20_text "World!" (Some (15, 20));;
  oled_show.

(** ** [motor_spin] (lines 158-181)

    The button can be pressed while the sequence runs.  [irq i] is the
    number of rising edges that reach the handler during iteration [i] of
    the loop before its test of [button_pushed] (line 176): the edges that
    arrive from the previous test, or from the entry of the call, on.
    [motor_direction] is [Some b] for a value equal to the Python boolean
    [b] and [None] for a value equal to neither. *)

Inductive loop_exit :=
| Exhausted     (* the range was run through *)
| Broke.        (* left through [break] *)

Definition motor_spin_init : M unit :=
  modify (set_motor_retract_steps 0);;
  motor_cleanup.

(** Lines 166-167: one row of the phase table on the four outputs. *)
Definition write_phase (motor_step_counter : Z) : M unit :=
  for_each (seq 0 (length motor_pins))
    (fun pin =>
       match motor_pins !! pin,
             step_sequence !! Z.to_nat motor_step_counter ≫= (.!! pin) with
       | Some p, Some v => pin_value p v
       | _, _ => mret tt
       end).

(** Lines 168-175. *)
Definition advance (motor_direction : option bool) (motor_step_counter : Z) : M Z :=
  match motor_direction with
  | Some true => mret ((motor_step_counter - 1) mod 4)
  | Some false => mret ((motor_step_counter + 1) mod 4)
  | None =>
      print "uh oh... direction should *always* be either True or False";;
      motor_cleanup;;
      exit 1
  end.

(** The [for] loop of line 165 with [todo] iterations left, at index [i]. *)
Fixpoint spin_loop (todo : nat) (i : nat) (motor_step_counter : Z)
    (motor_direction : option bool) (step_sleep : Q) (irq : nat -> nat)
    : M loop_exit :=
  match todo with
  | O => mret Exhausted
  | S todo' =>
      write_phase motor_step_counter;;
      next ← advance motor_direction motor_step_counter;
      button_edges (irq i);;
      pushed ← get button_pushed;
      if (pushed : bool) then
        motor_cleanup;;
        modify (set_motor_retract_steps (Z.of_nat i));;
        modify (set_button_pushed false);;
        mret Broke
      else
        sleep step_sleep;;
        spin_loop todo' (S i) next motor_direction step_sleep irq
  end.

Definition motor_spin (revolutions : Z) (motor_direction : option bool)
    (step_sleep : Q) (irq : nat -> nat) : M loop_exit :=
  motor_spin_init;;
  spin_loop (Z.to_nat (revolutions * step_count)) 0 0
            motor_direction step_sleep irq.

(** No button edge during the call. *)
Definition quiet : nat -> nat := fun _ => O.

(** ** [main] (lines 184-236)

    [main] never returns; it is run block by block.  A [point] is a place
    of the function where a block starts, a [frame] holds the point and the
    two locals, and [main_block] runs from one point to the next.  The
    tests of the shared flags sit at the head of the blocks, so a button
    edge that arrives inside a block acts as if it arrived at its end;
    [main_step] runs a block and then the edges of that block. *)

Inductive point :=
| PTop          (* line 187: top of the dispatcher loop *)
| PPresence     (* line 195: test of the presence-tracking loop *)
| PAbsence      (* line 204: test of the absence-timing loop *)
| PStandby      (* line 216 *)
| PManualIf     (* line 218 *)
| PManual       (* line 219: top of the MANUAL loop *)
| PDebugIf      (* line 229 *)
| PDebug.       (* line 230: top of the DEBUG loop *)

Record frame := mkFrame {
  pc : point;
  presence_detected : bool;
  time_since_presence : Z
}.

Definition goto (p : point) (f : frame) : frame :=
  mkFrame p (presence_detected f) (time_since_presence f).

(** Leave the block for point [p], the locals kept. *)
Definition jump (p : point) (f : frame) : M frame := mret (goto p f).

Definition close_message : string := "CLOSING THE SEAT WOOOO".

Definition main_block (env : sensors) (f : frame) : M frame :=
  match pc f with
  | PTop =>
      (* lines 189-194 *)
      motor_cleanup;;
      oled_poweroff;;
      d ← get mode_debug;
      m ← get mode_manual;
      if negb d && negb m then
        p ← detect_presence env;
        mret (mkFrame PPresence p (time_since_presence f))
      else
        mret (mkFrame PManualIf false (time_since_presence f))
  | PPresence =>
      (* lines 195-203 *)
      if presence_detected f then
        sw ← get mode_switch;
        if (sw : bool) then
          modify (set_mode_switch false);;
          jump PStandby f
        else
          show_something;;
          sleep (inject_Z polling_interval_presence);;
          p ← detect_presence env;
          mret (mkFrame PAbsence p 0)
      else
        jump PStandby f
  | PAbsence =>
      (* lines 204-215 *)
      if negb (presence_detected f) then
        sw ← get mode_switch;
        if (sw : bool) then
          jump PPresence f
        else if time_since_presence f >=? action_after_seconds then
          print close_message;;
          oled_poweroff;;
          jump PPresence f
        else
          sleep (inject_Z polling_interval_presence);;
          p ← detect_presence env;
          mret (mkFrame PAbsence p
                  (time_since_presence f + polling_interval_presence))
      else
        jump PPresence f
  | PStandby =>
      (* line 216 *)
      sleep (inject_Z polling_interval_standby);;
      jump PManualIf f
  | PManualIf =>
      (* line 218 *)
      d ← get mode_debug;
      m ← get mode_manual;
      jump (if negb d && m then PManual else PDebugIf) f
  | PManual =>
      (* lines 219-227 *)
      sw ← get mode_switch;
      if (sw : bool) then
        modify (set_mode_switch false);;
        jump PDebugIf f
      else
        print close_message;;
        motor_cleanup;;
        oled_poweroff;;
        write15_text "MANUAL mode" (Some (0, 0));;
        jump PManual f
  | PDebugIf =>
      (* line 229 *)
      d ← get mode_debug;
      m ← get mode_manual;
      jump (if d && negb m then PDebug else PTop) f
  | PDebug =>
      (* lines 230-236 *)
      sw ← get mode_switch;
      if (sw : bool) then
        modify (set_mode_switch false);;
        jump PTop f
      else
        motor_cleanup;;
        oled_poweroff;;
        write15_text "DEBUG mode" (Some (0, 0));;
        jump PDebug f
  end.

(** What the environment does during one block. *)
Record input := mkInput {
  readings : sensors;   (* what the sensors give if the block polls them *)
  edges : nat           (* button edges that arrive during the block *)
}.

Definition main_step (inp : input) (f : frame) : M frame :=
  f' ← main_block (readings inp) f;
  button_edges (edges inp);;
  mret f'.

Fixpoint main_run (inps : list input) (f : frame) : M frame :=
  match inps with
  | [] => mret f
  | inp :: inps' => f' ← main_step inp f; main_run inps' f'
  end.

(** [main()] is entered at the top of its loop (line 254). *)
Definition main_entry : frame := mkFrame PTop false 0.

(** ** Reading a history *)

Definition is_energise (e : event) : bool :=
  match e with
  | EPin p true => bool_decide (p ∈ motor_pins)
  | _ => false
  end.

Definition is_close (e : event) : bool :=
  match e with
  | EPrint t => String.eqb t close_message
  | _ => false
  end.

Definition is_sleep (e : event) : bool :=
  match e with ESleep _ => true | _ => false end.

Definition count_events (p : event -> bool) (h : list event) : nat :=
  length (filter (fun e => p e = true) h).

(** The four motor outputs are low. *)
Definition de_energised (s : state) : Prop :=
  ∀ p, p ∈ motor_pins → levels s !! p = Some false.

(** ** Definitions used by the statements *)

Definition next_mode (m : operating_mode) : operating_mode :=
  match m with
  | AUTOMATIC => MANUAL
  | MANUAL => DEBUG
  | DEBUG => AUTOMATIC
  end.

Definition mode_index (m : operating_mode) : nat :=
  match m with AUTOMATIC => 0 | MANUAL => 1 | DEBUG => 2 end.

(** The globals after a button edge taken in one of the three modes. *)
Definition pressed (s : state) : state :=
  mkState (negb (mode_debug s) && mode_manual s)
          (negb (mode_debug s) && negb (mode_manual s))
          true true
          (motor_retract_steps s) (previous_distance s) (levels s) (trace s).

(** The globals after [motor_cleanup]: the four outputs written low, in the
    order of [motor_pins]. *)
Definition cleaned (s : state) : state :=
  mkState (mode_debug s) (mode_manual s) (button_pushed s) (mode_switch s)
          (motor_retract_steps s) (previous_distance s)
          (<[pin_motor_4 := false]> (<[pin_motor_3 := false]>
             (<[pin_motor_2 := false]> (<[pin_motor_1 := false]> (levels s)))))
          (EPin pin_motor_4 false :: EPin pin_motor_3 false ::
           EPin pin_motor_2 false :: EPin pin_motor_1 false :: trace s).

(** The shared variables of the main flow and the handler. *)
Definition shared (s : state) : bool * bool * bool * bool * Z :=
  (mode_debug s, mode_manual s, button_pushed s, mode_switch s,
   motor_retract_steps s).

(** The phase index after a step in direction [b] (lines 168-171). *)
Definition next_phase (b : bool) (c : Z) : Z :=
  if b then (c - 1) mod 4 else (c + 1) mod 4.

(** The button is pressed once, during turn [k] of the loop. *)
Definition edge_at (k : nat) : nat → nat :=
  fun i => if Nat.eqb i k then 1%nat else 0%nat.

(** The globals after the first row of the phase table is written. *)
Definition phase_0 (s : state) : state :=
  mkState (mode_debug s) (mode_manual s) (button_pushed s) (mode_switch s)
          (motor_retract_steps s) (previous_distance s)
          (<[pin_motor_4 := false]> (<[pin_motor_3 := false]>
             (<[pin_motor_2 := false]> (<[pin_motor_1 := true]> (levels s)))))
          (EPin pin_motor_4 false :: EPin pin_motor_3 false ::
           EPin pin_motor_2 false :: EPin pin_motor_1 true :: trace s).

(** A poll that sees nobody from the boot baseline, and one that sees the
    light on. *)
Definition absent : sensors := mkSensors 100 (inject_Z 165).
Definition present : sensors := mkSensors 30000 (inject_Z 165).

(** A block during which the button is not pressed. *)
Definition undisturbed (r : sensors) : input := mkInput r 0.

(** The part of a history before, and after, the first event that
    satisfies [p]. *)
Fixpoint before_first (p : event → bool) (h : list event) : list event :=
  match h with
  | [] => []
  | e :: h' => if p e then [] else e :: before_first p h'
  end.

Fixpoint after_first (p : event → bool) (h : list event) : list event :=
  match h with
  | [] => []
  | e :: h' => if p e then h' else after_first p h'
  end.

Definition is_absent_report (e : event) : bool :=
  match e with
  | EPrint t => String.eqb t "Presence detected:  False"
  | _ => false
  end.

(** The seconds slept in a history. *)
Fixpoint slept (h : list event) : Q :=
  match h with
  | [] => 0
  | ESleep q :: h' => q + slept h'
  | _ :: h' => slept h'
  end.

(** Presence at the first poll of [main], then nobody, the button never
    pressed. *)
Definition presence_then_absence (polls : nat) : list input :=
  undisturbed present :: replicate polls (undisturbed absent).

(** What the main flow may do to the flags: leave the mode alone, and
    clear, never set, the two request flags. *)
Definition main_flow_frame (s s' : state) : Prop :=
  mode_debug s' = mode_debug s
  ∧ mode_manual s' = mode_manual s
  ∧ (mode_switch s' = true → mode_switch s = true)
  ∧ (button_pushed s' = true → button_pushed s = true).

(** ** Definitions used by the further properties *)

(** The motor output that row [c] of the phase table drives high. *)
Definition phase_pin (c : Z) : nat :=
  default 0%nat (motor_pins !! Z.to_nat c).

(** The phase index of turn [k] of an unaborted sequence: it starts at 0
    and goes up for direction [False], down for [True] (lines 163,
    168-171). *)
Definition phase_at (b : bool) (k : nat) : Z :=
  if b then (- Z.of_nat k) mod 4 else Z.of_nat k mod 4.

(** The motor outputs driven high in a history, in order. *)
Fixpoint energised (h : list event) : list nat :=
  match h with
  | [] => []
  | EPin p true :: h' =>
      if bool_decide (p ∈ motor_pins) then p :: energised h' else energised h'
  | _ :: h' => energised h'
  end.

(** The globals after row [c] of the phase table is written. *)
Definition phased (c : Z) (s : state) : state :=
  mkState (mode_debug s) (mode_manual s) (button_pushed s) (mode_switch s)
          (motor_retract_steps s) (previous_distance s)
          (<[pin_motor_4 := (c =? 3)]> (<[pin_motor_3 := (c =? 2)]>
             (<[pin_motor_2 := (c =? 1)]> (<[pin_motor_1 := (c =? 0)]> (levels s)))))
          (EPin pin_motor_4 (c =? 3) :: EPin pin_motor_3 (c =? 2) ::
           EPin pin_motor_2 (c =? 1) :: EPin pin_motor_1 (c =? 0) :: trace s).

(** The globals after [todo] turns of the loop of [motor_spin] in direction
    [b] from phase [c], when no turn is aborted. *)
Fixpoint spun (b : bool) (sl : Q) (todo : nat) (c : Z) (s : state) : state :=
  match todo with
  | O => s
  | S todo' => spun b sl todo' (next_phase b c) (log (ESleep sl) (phased c s))
  end.

(** A series of polls, the verdicts in order. *)
Fixpoint poll_all (envs : list sensors) : M (list bool) :=
  match envs with
  | [] => mret []
  | env :: envs' =>
      v ← detect_presence env;
      vs ← poll_all envs';
      mret (v :: vs)
  end.

(** Readings with the light off in which the distance never moves by more
    than [motion_threshold] from one poll to the next, the first one
    measured against [previous]. *)
Fixpoint gentle (previous : Q) (envs : list sensors) : Prop :=
  match envs with
  | [] => True
  | env :: envs' =>
      adc_u16 env ≤ brightness_threshold
      ∧ (Qabs (echo_cm env - previous) <= inject_Z motion_threshold)%Q
      ∧ gentle (echo_cm env) envs'
  end.

(** A walk from 165 cm towards the sensor, 4 cm closer at every poll. *)
Definition approach (polls : nat) : list sensors :=
  map (λ k, mkSensors 100 (inject_Z (165 - 4 * Z.of_nat (S k)))) (seq 0 polls).

(** The GPIO levels after the trigger pulse of [measure_distance]. *)
Definition triggered (l : gmap nat bool) : gmap nat bool :=
  <[pin_hcsr04_trigger := false]>
    (<[pin_hcsr04_trigger := true]> (<[pin_hcsr04_trigger := false]> l)).

(** The call returned, it did not exit. *)
Definition is_ret {A} (o : outcome A) : bool :=
  match o with Ret _ _ => true | Exit _ _ => false end.




(** The program's [exit] in a history. *)
Definition is_exit (e : event) : bool :=
  match e with EExit _ => true | _ => false end.

(** * Properties *)

(** ** Running the monad *)

Lemma bind_Ret {A B} (m : M A) (k : A → M B) s a s' :
  m s = Ret a s' → (m ≫= k) s = k a s'.
Proof. intros E. unfold mbind, M_bind. by rewrite E. Qed.

Lemma bind_Exit {A B} (m : M A) (k : A → M B) s c s' :
  m s = Exit c s' → (m ≫= k) s = Exit c s'.
Proof. intros E. unfold mbind, M_bind. by rewrite E. Qed.

Ltac run :=
  cbv beta iota delta
    [mbind M_bind mret M_ret get modify emit exit sleep sleep_us print
     oled_show oled_poweroff write15_text write20_text pin_low pin_high
     pin_value measure_brightness measure_distance show_something jump];
  cbn.

(** ** The mode cycle *)

Lemma button_interrupt_pressed s :
  is_Some (mode_of s) → button_interrupt s = Ret tt (pressed s).
Proof.
  destruct s as [[] [] bp sw r d l t]; intros [m Hm]; try done.
Qed.

Lemma mode_of_pressed s m :
  mode_of s = Some m → mode_of (pressed s) = Some (next_mode m).
Proof.
  destruct s as [[] [] bp sw r d l t]; cbn; intros; simplify_eq; done.
Qed.

Lemma button_edges_S n s :
  is_Some (mode_of s) →
  button_edges (S n) s = button_edges n (pressed s).
Proof.
  intros V. cbn [button_edges].
  by rewrite (bind_Ret _ _ _ _ _ (button_interrupt_pressed s V)).
Qed.

(** In one of the three modes, [n] edges are [n] turns of the cycle: the
    handler returns every time, and touches nothing but the four flags. *)
Lemma button_edges_spec n : ∀ s m,
  mode_of s = Some m →
  ∃ s', button_edges n s = Ret tt s'
      ∧ mode_of s' = Some (Nat.iter n next_mode m)
      ∧ button_pushed s' = (if n is O then button_pushed s else true)
      ∧ mode_switch s' = (if n is O then mode_switch s else true)
      ∧ motor_retract_steps s' = motor_retract_steps s
      ∧ previous_distance s' = previous_distance s
      ∧ levels s' = levels s
      ∧ trace s' = trace s.
Proof.
  induction n as [|n IH]; intros s m Hm.
  - exists s. by repeat split.
  - rewrite button_edges_S by (by exists m).
    destruct (IH (pressed s) (next_mode m) (mode_of_pressed s m Hm))
      as (s' & E & Hmode & Hbp & Hsw & Hr & Hd & Hl & Ht).
    exists s'. rewrite E, Hmode, Hbp, Hsw, Hr, Hd, Hl, Ht.
    repeat split; try by destruct n.
    by rewrite Nat.iter_succ_r.
Qed.

Lemma mode_index_next m :
  mode_index (next_mode m) = (S (mode_index m) mod 3)%nat.
Proof. by destruct m. Qed.

Lemma mode_index_iter n :
  mode_index (Nat.iter n next_mode AUTOMATIC) = (n mod 3)%nat.
Proof.
  induction n as [|n IH]; [done|].
  cbn [Nat.iter nat_rect]. rewrite mode_index_next. fold (Nat.iter n next_mode AUTOMATIC).
  rewrite IH.
  replace (S (n mod 3)) with (1 + n mod 3)%nat by done.
  replace (S n) with (1 + n)%nat by done.
  by rewrite Nat.Div0.add_mod_idemp_r.
Qed.

Lemma mode_cycle_index m : mode_cycle !! mode_index m = Some m.
Proof. by destruct m. Qed.

(** C1. From AUTOMATIC (both mode flags false), [N] button edges return
    from the handler [N] times and leave the mode that stands at place
    [N mod 3] of the cycle AUTOMATIC, MANUAL, DEBUG; the defensive branch,
    which logs to the display and exits, is never taken: the call returns
    and the trace is unchanged. *)
Theorem button_cycle (N : nat) (s : state) :
  mode_debug s = false → mode_manual s = false →
  ∃ s', button_edges N s = Ret tt s'
      ∧ mode_of s' = mode_cycle !! (N mod 3)%nat
      ∧ trace s' = trace s.
Proof.
  intros Hd Hm.
  assert (mode_of s = Some AUTOMATIC) as Ha by (unfold mode_of; by rewrite Hd, Hm).
  destruct (button_edges_spec N s AUTOMATIC Ha) as (s' & E & Hmode & _ & _ & _ & _ & _ & Ht).
  exists s'. repeat split; try done.
  by rewrite Hmode, <- mode_index_iter, mode_cycle_index.
Qed.

Lemma button_cycle_witness :
  ∃ s', button_edges 7 boot = Ret tt s'
      ∧ mode_of s' = mode_cycle !! (7 mod 3)%nat
      ∧ trace s' = trace boot.
Proof. apply (button_cycle 7 boot); reflexivity. Defined.

(** ** The presence detector *)

Lemma Qltb_lt (x y : Q) : Qltb x y = true ↔ (x < y)%Q.
Proof.
  unfold Qltb. rewrite negb_true_iff, <- not_true_iff_false, Qle_bool_iff.
  split; [apply Qnot_le_lt | apply Qlt_not_le].
Qed.

Lemma Qabs_gt (x m : Q) : (m < Qabs x)%Q ↔ (m < x)%Q ∨ (x < - m)%Q.
Proof.
  split.
  - intros H. destruct (Qlt_le_dec m x) as [|Hx]; [by left|right].
    destruct (Qlt_le_dec x (- m)) as [|Hm]; [done|].
    exfalso. apply (Qlt_not_le _ _ H). apply Qabs_Qle_condition. by split.
  - intros H. apply Qnot_le_lt. intros Hle.
    apply Qabs_Qle_condition in Hle as [H1 H2].
    destruct H as [H|H]; [apply (Qlt_not_le _ _ H H2) | apply (Qlt_not_le _ _ H H1)].
Qed.

(** What a call of [detect_presence] returns, as the source computes it. *)
Lemma detect_presence_returns env s :
  ∃ s', detect_presence env s =
          Ret ((adc_u16 env >? brightness_threshold)
               || Qgtb (echo_cm env) (previous_distance s + inject_Z motion_threshold)
               || Qltb (echo_cm env) (previous_distance s - inject_Z motion_threshold)) s'
      ∧ previous_distance s' = echo_cm env
      ∧ mode_debug s' = mode_debug s ∧ mode_manual s' = mode_manual s
      ∧ button_pushed s' = button_pushed s ∧ mode_switch s' = mode_switch s
      ∧ motor_retract_steps s' = motor_retract_steps s.
Proof.
  destruct s as [d m bp sw r prev l t].
  eexists. split; [unfold detect_presence; run; by rewrite orb_assoc|].
  by cbn.
Qed.

(** C7. [detect_presence] returns true exactly when the brightness sample is
    above [brightness_threshold] or the distance just measured lies more
    than [motion_threshold] away from the stored [previous_distance], on
    either side.  A brightness of 30000 gives true whatever the distance,
    and a distance of 175 against a stored 165 gives true whatever the
    brightness. *)
Theorem detect_presence_verdict :
  (∀ env s, ∃ v s', detect_presence env s = Ret v s' ∧
     (v = true ↔
        adc_u16 env > brightness_threshold
        ∨ (inject_Z motion_threshold < Qabs (echo_cm env - previous_distance s))%Q))
  ∧ (∀ distance s,
       returned (detect_presence (mkSensors 30000 distance) s) = Some true)
  ∧ (∀ brightness s,
       returned (detect_presence (mkSensors brightness (inject_Z 175))
                   (set_previous_distance (inject_Z 165) s)) = Some true).
Proof.
  split; [|split].
  - intros env s.
    destruct (detect_presence_returns env s) as (s' & E & _).
    eexists _, s'. split; [exact E|].
    unfold Qgtb. rewrite !orb_true_iff, !Qltb_lt, Qabs_gt, Z.gtb_gt.
    set (d := echo_cm env). set (p := previous_distance s).
    set (m := inject_Z motion_threshold).
    assert ((p + m < d)%Q ↔ (m < d - p)%Q) as -> by (split; intros; lra).
    assert ((d < p - m)%Q ↔ (d - p < - m)%Q) as -> by (split; intros; lra).
    tauto.
  - intros distance s.
    destruct (detect_presence_returns (mkSensors 30000 distance) s) as (s' & E & _).
    by rewrite E.
  - intros brightness s.
    destruct (detect_presence_returns (mkSensors brightness (inject_Z 175))
                (set_previous_distance (inject_Z 165) s)) as (s' & E & _).
    rewrite E. cbn. by rewrite orb_true_r.
Qed.

Lemma detect_presence_verdict_witness :
  returned (detect_presence (mkSensors 30000 (inject_Z 40)) boot) = Some true
  ∧ returned (detect_presence (mkSensors 120 (inject_Z 175))
                (set_previous_distance (inject_Z 165) boot)) = Some true.
Proof.
  destruct detect_presence_verdict as (_ & Hbright & Hmotion).
  split; [apply Hbright | apply Hmotion].
Defined.

(** C8. Whatever the stored baseline and whatever the two readings, a call
    of [detect_presence] returns and leaves [previous_distance] equal to
    the distance measured in that call, for either verdict. *)
Theorem detect_presence_baseline (env : sensors) (s : state) :
  ∃ v s', detect_presence env s = Ret v s'
        ∧ previous_distance s' = echo_cm env.
Proof.
  destruct (detect_presence_returns env s) as (s' & E & Hp & _).
  by eexists _, s'.
Qed.

(** ** The stepper sequence *)

Lemma motor_cleanup_cleaned s : motor_cleanup s = Ret tt (cleaned s).
Proof. by destruct s. Qed.

Lemma de_energised_cleaned s : de_energised (cleaned s).
Proof.
  intros p Hp. unfold motor_pins in Hp. cbn [cleaned levels].
  repeat (apply elem_of_cons in Hp as [->|Hp]); [..|by apply elem_of_nil in Hp];
    by simplify_map_eq.
Qed.

(** [de_energised] reads the levels only. *)
Lemma de_energised_levels s s' :
  levels s' = levels s → de_energised s → de_energised s'.
Proof. intros E H p Hp. rewrite E. by apply H. Qed.

Lemma shared_mode_of s s' : shared s' = shared s → mode_of s' = mode_of s.
Proof. unfold shared, mode_of. intros [= -> -> _ _ _]. done. Qed.

Lemma count_events_cons p e h :
  count_events p (e :: h)
  = ((if p e then 1 else 0) + count_events p h)%nat.
Proof.
  unfold count_events. rewrite filter_cons.
  destruct (p e); by case_decide.
Qed.

(** One row of the phase table: the call returns and writes pins only. *)
Lemma write_phase_returns c s :
  ∃ s', write_phase c s = Ret tt s'
      ∧ shared s' = shared s
      ∧ count_events is_sleep (trace s') = count_events is_sleep (trace s).
Proof.
  destruct s as [d m bp sw r prev l t].
  unfold write_phase. cbn [length motor_pins seq for_each].
  destruct (step_sequence !! Z.to_nat c) as [row|]; cbn;
    [destruct (row !! 0%nat), (row !! 1%nat), (row !! 2%nat), (row !! 3%nat)|];
    run; eexists; (split; [reflexivity|by cbn]).
Qed.

(** One turn of the loop, for a direction that is a boolean. *)
Lemma spin_loop_turn todo i c b sl irq s :
  spin_loop (S todo) i c (Some b) sl irq s =
  match write_phase c s with
  | Ret _ s1 =>
      match button_edges (irq i) s1 with
      | Ret _ s2 =>
          if button_pushed s2 then
            Ret Broke (set_button_pushed false
                         (set_motor_retract_steps (Z.of_nat i) (cleaned s2)))
          else
            spin_loop todo (S i) (next_phase b c) (Some b) sl irq
                      (log (ESleep sl) s2)
      | Exit code s2 => Exit code s2
      end
  | Exit code s1 => Exit code s1
  end.
Proof.
  cbn [spin_loop]. unfold mbind at 1, M_bind at 1.
  destruct (write_phase c s) as [[] s1|]; [|done].
  destruct b; cbn [advance next_phase];
    unfold mbind at 1, M_bind at 1; cbn [mret M_ret];
    unfold mbind at 1, M_bind at 1;
    (destruct (button_edges (irq i) s1) as [[] s2|]; [|done]);
    unfold mbind at 1, M_bind at 1; cbn [get];
    (destruct (button_pushed s2) eqn:E; [|done]);
    unfold mbind at 1, M_bind at 1; rewrite motor_cleanup_cleaned; done.
Qed.

(** The abort path.  If the flag is clear on entry of the loop, no edge
    arrives during the first [k] turns and one arrives during the next, the
    loop breaks in that turn, after [k] sleeps, with the index of the turn
    in [motor_retract_steps], the flag clear and the outputs low. *)
Lemma spin_loop_abort b sl irq : ∀ k todo i c s,
  is_Some (mode_of s) → button_pushed s = false →
  (k < todo)%nat →
  (∀ j, (j < k)%nat → irq (i + j)%nat = 0%nat) →
  irq (i + k)%nat ≠ 0%nat →
  ∃ s', spin_loop todo i c (Some b) sl irq s = Ret Broke s'
      ∧ motor_retract_steps s' = Z.of_nat (i + k)
      ∧ button_pushed s' = false
      ∧ de_energised s'
      ∧ count_events is_sleep (trace s')
        = (k + count_events is_sleep (trace s))%nat.
Proof.
  induction k as [|k IH]; intros todo i c s Hv Hbp Hk Hq Hedge;
    (destruct todo as [|todo]; [lia|]); rewrite spin_loop_turn;
    destruct (write_phase_returns c s) as (s1 & -> & Hs1 & Hc1);
    pose proof (shared_mode_of _ _ Hs1) as Hm1;
    destruct Hv as [m Hm]; rewrite <- Hm1 in Hm.
  - rewrite Nat.add_0_r in Hedge. destruct (irq i) as [|n] eqn:En; [done|].
    destruct (button_edges_spec (S n) s1 m Hm)
      as (s2 & -> & _ & -> & _ & _ & _ & _ & Ht).
    eexists. split; [reflexivity|]. rewrite Nat.add_0_r.
    repeat split; [apply (de_energised_levels (cleaned s2)); [done|apply de_energised_cleaned]|].
    cbn [trace cleaned set_button_pushed set_motor_retract_steps].
    rewrite !count_events_cons, Ht, Hc1. done.
  - assert (irq i = 0%nat) as ->
      by (rewrite <- (Hq 0%nat) by lia; f_equal; lia).
    cbn [button_edges mret M_ret].
    assert (button_pushed s1 = false) as ->
      by (revert Hs1; unfold shared; intros [= _ _ -> _ _]; done).
    destruct (IH todo (S i) (next_phase b c) (log (ESleep sl) s1))
      as (s' & E & Hr & Hb' & Hde & Hcnt).
    + by exists m.
    + cbn. revert Hs1; unfold shared; intros [= _ _ -> _ _]; done.
    + lia.
    + intros j Hj. replace (S i + j)%nat with (i + S j)%nat by lia.
      apply Hq. lia.
    + by replace (S i + k)%nat with (i + S k)%nat by lia.
    + exists s'. rewrite E, Hr, Hb', Hcnt. repeat split; [f_equal; lia|done|].
      cbn [trace log]. rewrite count_events_cons, Hc1. cbn [is_sleep]. lia.
Qed.

Lemma motor_spin_init_cleaned s :
  motor_spin_init s = Ret tt (cleaned (set_motor_retract_steps 0 s)).
Proof. by destruct s. Qed.

Lemma motor_spin_loop revolutions direction sl irq s :
  motor_spin revolutions direction sl irq s =
  spin_loop (Z.to_nat (revolutions * step_count)) 0 0 direction sl irq
            (cleaned (set_motor_retract_steps 0 s)).
Proof.
  unfold motor_spin.
  by rewrite (bind_Ret _ _ _ _ _ (motor_spin_init_cleaned s)).
Qed.

(** C3. A call for [n = revolutions * step_count] steps in which the flag
    is clear at entry and the button is first pressed after [k] of the [n]
    steps (no edge during the first [k] turns of the loop, an edge during
    the next) leaves the loop through [break]: it returns early, with
    [motor_retract_steps] equal to [k], [button_pushed] clear and the four
    motor outputs low, after [k] sleeps between steps. *)
Theorem motor_spin_abort (revolutions : Z) (b : bool) (step_sleep : Q)
    (irq : nat → nat) (k : nat) (s : state) :
  is_Some (mode_of s) → button_pushed s = false →
  (0 < k < Z.to_nat (revolutions * step_count))%nat →
  (∀ j, (j < k)%nat → irq j = 0%nat) → irq k ≠ 0%nat →
  ∃ s', motor_spin revolutions (Some b) step_sleep irq s = Ret Broke s'
      ∧ motor_retract_steps s' = Z.of_nat k
      ∧ button_pushed s' = false
      ∧ de_energised s'
      ∧ count_events is_sleep (trace s')
        = (k + count_events is_sleep (trace s))%nat.
Proof.
  intros Hv Hbp [_ Hk] Hq Hedge. rewrite motor_spin_loop.
  destruct (spin_loop_abort b step_sleep irq k
              (Z.to_nat (revolutions * step_count)) 0 0
              (cleaned (set_motor_retract_steps 0 s)))
    as (s' & E & Hr & Hb' & Hde & Hcnt); try done.
  by exists s'.
Qed.

Lemma motor_spin_abort_witness :
  ∃ s', motor_spin 1 (Some false) step_sleep_open (edge_at 5) boot = Ret Broke s'
      ∧ motor_retract_steps s' = 5
      ∧ button_pushed s' = false
      ∧ de_energised s'
      ∧ count_events is_sleep (trace s')
        = (5 + count_events is_sleep (trace boot))%nat.
Proof.
  apply (motor_spin_abort 1 false step_sleep_open (edge_at 5) 5 boot).
  - by exists AUTOMATIC.
  - reflexivity.
  - unfold step_count. lia.
  - intros j Hj. do 5 (destruct j as [|j]; [reflexivity|]). lia.
  - discriminate.
Defined.

(** C5, as the code has it.  The initialisation of [motor_spin] (lines
    161-164) returns with [button_pushed] as it was at entry: it resets
    [motor_retract_steps] and forces the four outputs low, and does not
    touch the flag. *)
Theorem motor_spin_init_keeps_flag (s : state) :
  ∃ s', motor_spin_init s = Ret tt s'
      ∧ button_pushed s' = button_pushed s
      ∧ motor_retract_steps s' = 0
      ∧ de_energised s'.
Proof.
  exists (cleaned (set_motor_retract_steps 0 s)).
  split; [apply motor_spin_init_cleaned|].
  repeat split. apply de_energised_cleaned.
Qed.

(** C5, as stated, fails: entered with the flag set, the initialisation
    leaves it set. *)
Lemma motor_spin_init_flag_counterexample :
  button_pushed (set_button_pushed true boot) = true
  ∧ button_pushed (final (motor_spin_init (set_button_pushed true boot))) = true.
Proof. split; reflexivity. Qed.

Lemma write_phase_0 s : write_phase 0 s = Ret tt (phase_0 s).
Proof. by destruct s. Qed.

(** C10. Entered with [button_pushed] already set and at least one step to
    do, [motor_spin] writes the first row of the phase table on the
    outputs, forces the four outputs low, sets [motor_retract_steps] to 0,
    clears [button_pushed] and returns through [break]: all it logs is the
    initial cleanup, that one row and the final cleanup, with no sleep. *)
Theorem motor_spin_stale_flag (revolutions : Z) (b : bool) (step_sleep : Q)
    (irq : nat → nat) (s : state) :
  is_Some (mode_of s) → button_pushed s = true → 0 < revolutions →
  ∃ s', motor_spin revolutions (Some b) step_sleep irq s = Ret Broke s'
      ∧ history s' =
          history s ++
          [EPin pin_motor_1 false; EPin pin_motor_2 false;
           EPin pin_motor_3 false; EPin pin_motor_4 false;
           EPin pin_motor_1 true; EPin pin_motor_2 false;
           EPin pin_motor_3 false; EPin pin_motor_4 false;
           EPin pin_motor_1 false; EPin pin_motor_2 false;
           EPin pin_motor_3 false; EPin pin_motor_4 false]
      ∧ motor_retract_steps s' = 0
      ∧ button_pushed s' = false
      ∧ de_energised s'.
Proof.
  intros [m Hm] Hbp Hrev. rewrite motor_spin_loop.
  destruct (Z.to_nat (revolutions * step_count)) as [|todo] eqn:En;
    [unfold step_count in En; lia|].
  clear En Hrev.
  rewrite spin_loop_turn, write_phase_0.
  set (s1 := phase_0 (cleaned (set_motor_retract_steps 0 s))).
  destruct (button_edges_spec (irq 0%nat) s1 m Hm)
    as (s2 & -> & _ & Hbp2 & _ & _ & _ & _ & Ht2).
  assert (button_pushed s2 = true) as ->.
  { rewrite Hbp2. destruct (irq 0%nat); [exact Hbp|done]. }
  eexists. split; [reflexivity|]. repeat split.
  - unfold history.
    cbn [trace cleaned set_button_pushed set_motor_retract_steps].
    rewrite Ht2. unfold s1.
    cbn [trace phase_0 cleaned set_motor_retract_steps rev].
    by rewrite <- !app_assoc.
  - apply (de_energised_levels (cleaned s2)); [done|apply de_energised_cleaned].
Qed.

Lemma motor_spin_stale_flag_witness :
  ∃ s', motor_spin 1 (Some false) step_sleep_open quiet
          (set_button_pushed true boot) = Ret Broke s'
      ∧ count_events is_sleep (history s') = 0%nat
      ∧ motor_retract_steps s' = 0
      ∧ button_pushed s' = false.
Proof.
  destruct (motor_spin_stale_flag 1 false step_sleep_open quiet
              (set_button_pushed true boot))
    as (s' & E & Hh & Hr & Hb & _).
  - by exists AUTOMATIC.
  - reflexivity.
  - lia.
  - exists s'. rewrite E, Hh, Hr, Hb. repeat split.
Defined.

(** A row of the phase table leaves the output of its phase high. *)
Lemma write_phase_energises c s :
  0 ≤ c < 4 →
  ∃ s', write_phase c s = Ret tt s'
      ∧ shared s' = shared s
      ∧ ∃ p, p ∈ motor_pins ∧ levels s' !! p = Some true.
Proof.
  intros Hc. destruct s as [d m bp sw r prev l t].
  assert (c = 0 ∨ c = 1 ∨ c = 2 ∨ c = 3) as [ -> | [ -> | [ -> | -> ] ] ] by lia;
    (eexists; split; [reflexivity|split; [reflexivity|]]).
  - exists pin_motor_1. split; [apply list_elem_of_In; cbn; tauto|cbn; repeat (rewrite lookup_insert_ne by done); apply lookup_insert_eq].
  - exists pin_motor_2. split; [apply list_elem_of_In; cbn; tauto|cbn; repeat (rewrite lookup_insert_ne by done); apply lookup_insert_eq].
  - exists pin_motor_3. split; [apply list_elem_of_In; cbn; tauto|cbn; repeat (rewrite lookup_insert_ne by done); apply lookup_insert_eq].
  - exists pin_motor_4. split; [apply list_elem_of_In; cbn; tauto|cbn; repeat (rewrite lookup_insert_ne by done); apply lookup_insert_eq].
Qed.

Lemma next_phase_range b c : 0 ≤ next_phase b c < 4.
Proof. unfold next_phase. destruct b; apply Z.mod_pos_bound; lia. Qed.

(** With no button edge and the flag clear, the loop runs its range
    through; after one turn or more an output is left high. *)
Lemma spin_loop_quiet b sl : ∀ todo i c s,
  0 ≤ c < 4 → button_pushed s = false →
  ∃ s', spin_loop todo i c (Some b) sl quiet s = Ret Exhausted s'
      ∧ shared s' = shared s
      ∧ (todo = 0%nat → levels s' = levels s)
      ∧ (todo ≠ 0%nat → ∃ p, p ∈ motor_pins ∧ levels s' !! p = Some true).
Proof.
  induction todo as [|todo IH]; intros i c s Hc Hbp.
  - exists s. by repeat split.
  - rewrite spin_loop_turn.
    destruct (write_phase_energises c s Hc) as (s1 & -> & Hs1 & p & Hp & Hl).
    cbn [quiet button_edges mret M_ret].
    assert (button_pushed s1 = false) as Hbp1
      by (revert Hs1; unfold shared; intros [= _ _ -> _ _]; done).
    rewrite Hbp1.
    destruct (IH (S i) (next_phase b c) (log (ESleep sl) s1)
                (next_phase_range b c) Hbp1)
      as (s' & -> & Hs' & H0 & Hpos).
    exists s'. repeat split; [by rewrite Hs'|done|].
    intros _. destruct todo as [|todo].
    + exists p. split; [done|]. by rewrite H0.
    + by apply Hpos.
Qed.

(** C4, on the code.  A call of [motor_spin] that is not aborted and does
    at least one step runs its range through and returns with one of the
    four motor outputs still high: the outputs are forced low before the
    loop and on the abort path, not after the last step. *)
Theorem motor_spin_completed_energised (revolutions : Z) (b : bool)
    (step_sleep : Q) (s : state) :
  button_pushed s = false → 0 < revolutions →
  ∃ s', motor_spin revolutions (Some b) step_sleep quiet s = Ret Exhausted s'
      ∧ ¬ de_energised s'.
Proof.
  intros Hbp Hrev. rewrite motor_spin_loop.
  destruct (spin_loop_quiet b step_sleep (Z.to_nat (revolutions * step_count))
              0%nat 0 (cleaned (set_motor_retract_steps 0 s)))
    as (s' & E & _ & _ & Hpos); [lia|done|].
  exists s'. split; [done|]. intros Hde.
  destruct Hpos as (p & Hp & Hl); [unfold step_count; lia|].
  specialize (Hde p Hp). congruence.
Qed.

Lemma motor_spin_completed_energised_witness :
  ∃ s', motor_spin 1 (Some false) step_sleep_open quiet boot = Ret Exhausted s'
      ∧ ¬ de_energised s'.
Proof.
  apply (motor_spin_completed_energised 1 false step_sleep_open boot);
    [reflexivity|lia].
Defined.

(** The default call [motor_spin()] from the globals of the module: after
    its 2048 steps the fourth output is high. *)
Lemma motor_spin_default_leaves_pin_4 :
  levels (final (motor_spin 1 (Some false) step_sleep_open quiet boot))
    !! pin_motor_4 = Some true.
Proof. vm_compute. reflexivity. Qed.

(** ** The dispatcher *)

(** The flag seen at the top of the presence-tracking loop (lines 196-198):
    it is cleared, and the loop is left for line 216. *)
Lemma presence_loop_break env t s :
  mode_switch s = true →
  main_block env (mkFrame PPresence true t) s
  = Ret (mkFrame PStandby true t) (set_mode_switch false s).
Proof. intros H. unfold main_block. run. by rewrite H. Qed.

(** C6, on the code.  The flag seen at the top of the absence-timing loop
    (lines 205-206) breaks that loop, and the test of the presence-tracking
    loop, false at that point, ends the outer loop as well: control is at
    line 216, out of both loops, with the globals untouched, so
    [mode_switch] is still set. *)
Theorem absence_loop_break_keeps_flag (env env' : sensors) (t : Z) (s : state) :
  mode_switch s = true →
  main_block env (mkFrame PAbsence false t) s
  = Ret (mkFrame PPresence false t) s
  ∧ main_block env' (mkFrame PPresence false t) s
    = Ret (mkFrame PStandby false t) s
  ∧ mode_switch s = true.
Proof.
  intros H. repeat split; [|done].
  unfold main_block. run. by rewrite H.
Qed.

Lemma absence_loop_break_keeps_flag_witness :
  main_block absent (mkFrame PAbsence false 3) (pressed boot)
  = Ret (mkFrame PPresence false 3) (pressed boot)
  ∧ main_block absent (mkFrame PPresence false 3) (pressed boot)
    = Ret (mkFrame PStandby false 3) (pressed boot)
  ∧ mode_switch (pressed boot) = true.
Proof.
  apply (absence_loop_break_keeps_flag absent absent 3 (pressed boot)).
  reflexivity.
Defined.

(** What the flag left set does next: in MANUAL mode the dispatcher enters
    the MANUAL loop, which takes the old request for a new one, clears it
    and leaves at once, without its action. *)
Lemma stale_switch_breaks_manual_loop :
  let o := main_run (replicate 3 (undisturbed absent))
             (mkFrame PStandby false 3) (pressed boot) in
  returned o = Some (mkFrame PDebugIf false 3)
  ∧ mode_of (final o) = Some MANUAL
  ∧ mode_switch (final o) = false
  ∧ count_events is_close (history (final o)) = 0%nat.
Proof. vm_compute. repeat split. Qed.

(** The main flow and the handler never drive a motor output high. *)
Lemma main_block_never_energises env f s :
  count_events is_energise (trace (final (main_block env f s)))
  = count_events is_energise (trace s).
Proof.
  destruct s as [d m bp sw r prev l t], f as [[] p ts]; unfold main_block;
    destruct d, m, p, sw; try destruct (ts >=? action_after_seconds) eqn:?;
    run; rewrite ?count_events_cons; try done; rewrite ?Heqb; done.
Qed.

Lemma button_interrupt_never_energises s :
  count_events is_energise (trace (final (button_interrupt s)))
  = count_events is_energise (trace s).
Proof. by destruct s as [[] [] bp sw r prev l t]. Qed.

Lemma button_edges_never_energises n : ∀ s,
  count_events is_energise (trace (final (button_edges n s)))
  = count_events is_energise (trace s).
Proof.
  induction n as [|n IH]; intros s; [done|].
  cbn [button_edges]. unfold mbind, M_bind.
  pose proof (button_interrupt_never_energises s) as H.
  destruct (button_interrupt s) as [[] s1|code s1]; cbn [final] in *.
  - by rewrite IH.
  - done.
Qed.

Lemma main_step_never_energises inp f s :
  count_events is_energise (trace (final (main_step inp f s)))
  = count_events is_energise (trace s).
Proof.
  unfold main_step, mbind, M_bind.
  pose proof (main_block_never_energises (readings inp) f s) as H.
  destruct (main_block (readings inp) f s) as [f1 s1|code s1]; cbn [final] in *;
    [|done].
  pose proof (button_edges_never_energises (edges inp) s1) as H1.
  destruct (button_edges (edges inp) s1) as [[] s2|code s2];
    unfold mret, M_ret; cbn [final] in *; congruence.
Qed.

(** Whatever the sensors give and whenever the button is pressed, no run of
    [main] drives a motor output high: [main] never calls [motor_spin]. *)
Lemma main_run_never_energises inps : ∀ f s,
  count_events is_energise (trace (final (main_run inps f s)))
  = count_events is_energise (trace s).
Proof.
  induction inps as [|inp inps IH]; intros f s; [done|].
  cbn [main_run]. unfold mbind, M_bind.
  pose proof (main_step_never_energises inp f s) as H.
  destruct (main_step inp f s) as [f1 s1|code s1]; cbn [final] in *.
  - by rewrite IH.
  - done.
Qed.

(** C2, on the code.  From boot, presence at the first poll of [main] and
    nobody from then on, the button never pressed, for 64 blocks: the run
    leaves both loops for line 216; the close message is logged once, 60
    seconds of sleep after the first report of absence, and the display is
    powered off right after it; no motor output is driven high anywhere in
    the run, that is, the stepper is not run. *)
Theorem close_action_without_actuation :
  let o := main_run (presence_then_absence 63) main_entry boot in
  returned o = Some (mkFrame PStandby false 60)
  ∧ count_events is_close (history (final o)) = 1%nat
  ∧ slept (before_first is_close
             (after_first is_absent_report (history (final o))))
    = inject_Z action_after_seconds
  ∧ head (after_first is_close (history (final o))) = Some EOledPoweroff
  ∧ count_events is_energise (history (final o)) = 0%nat.
Proof. vm_compute. repeat split. Qed.

(** Before the 60 seconds are over nothing is closed: one block earlier in
    the same run the message is not in the history yet. *)
Lemma no_close_before_threshold :
  let o := main_run (presence_then_absence 61) main_entry boot in
  (time_since_presence <$> returned o) = Some action_after_seconds
  ∧ count_events is_close (history (final o)) = 0%nat.
Proof. vm_compute. repeat split. Qed.

(** ** Who writes the shared variables *)

Lemma main_block_frame env f s :
  main_flow_frame s (final (main_block env f s))
  ∧ button_pushed (final (main_block env f s)) = button_pushed s
  ∧ motor_retract_steps (final (main_block env f s)) = motor_retract_steps s.
Proof.
  destruct s as [d m bp sw r prev l t], f as [[] p ts]; unfold main_block;
    destruct d, m, p, sw; try destruct (ts >=? action_after_seconds) eqn:?;
    run; rewrite ?Heqb; by repeat split.
Qed.

Lemma advance_None c s :
  advance None c s
  = Exit 1 (log (EExit 1)
              (cleaned (log (EPrint "uh oh... direction should *always* be either True or False") s))).
Proof. by destruct s. Qed.

Lemma spin_loop_quiet_frame direction sl : ∀ todo i c s,
  main_flow_frame s (final (spin_loop todo i c direction sl quiet s))
  ∧ mode_switch (final (spin_loop todo i c direction sl quiet s))
    = mode_switch s.
Proof.
  unfold main_flow_frame.
  induction todo as [|todo IH]; intros i c s; [by repeat split|].
  destruct (write_phase_returns c s) as (s1 & E1 & Hs1 & _).
  revert Hs1. unfold shared. intros [= Hd Hm Hb Hw Hr].
  destruct direction as [b|].
  - rewrite spin_loop_turn, E1. cbn [quiet button_edges mret M_ret].
    destruct (button_pushed s1) eqn:Hbp.
    + cbn [final mode_debug mode_manual mode_switch button_pushed
           set_button_pushed set_motor_retract_steps cleaned].
      repeat split; try done; congruence.
    + destruct (IH (S i) (next_phase b c) (log (ESleep sl) s1))
        as ((Hd' & Hm' & Hw' & Hb') & Hsw).
      cbn [mode_debug mode_manual mode_switch button_pushed log]
        in Hd', Hm', Hw', Hb', Hsw.
      repeat split; try congruence.
      intros H. apply Hb' in H. congruence.
  - cbn [spin_loop].
    rewrite (bind_Ret _ _ _ _ _ E1), (bind_Exit _ _ _ _ _ (advance_None c s1)).
    cbn [final mode_debug mode_manual mode_switch button_pushed log cleaned].
    repeat split; try done; congruence.
Qed.

Lemma motor_spin_quiet_frame revolutions direction sl s :
  main_flow_frame s (final (motor_spin revolutions direction sl quiet s))
  ∧ mode_switch (final (motor_spin revolutions direction sl quiet s))
    = mode_switch s.
Proof.
  rewrite motor_spin_loop.
  apply (spin_loop_quiet_frame direction sl _ 0%nat 0
           (cleaned (set_motor_retract_steps 0 s))).
Qed.

Lemma button_interrupt_frame s :
  motor_retract_steps (final (button_interrupt s)) = motor_retract_steps s
  ∧ previous_distance (final (button_interrupt s)) = previous_distance s
  ∧ button_pushed (final (button_interrupt s)) = true.
Proof. by destruct s as [[] [] bp sw r prev l t]. Qed.

(** C9, as the code has it.  The two mode flags are written by the handler
    alone: no block of [main] and no call of [motor_spin] changes them.
    The two request flags are set by the handler alone; the main flow
    clears them ([mode_switch] in the loops of [main], [button_pushed] in
    the abort path of [motor_spin]) and never sets them.
    [motor_retract_steps] is written by [motor_spin] alone: the handler and
    the blocks of [main] leave it as it is. *)
Theorem shared_state_writers :
  (∀ env f s,
     main_flow_frame s (final (main_block env f s))
     ∧ button_pushed (final (main_block env f s)) = button_pushed s
     ∧ motor_retract_steps (final (main_block env f s))
       = motor_retract_steps s)
  ∧ (∀ revolutions direction step_sleep s,
       main_flow_frame s
         (final (motor_spin revolutions direction step_sleep quiet s))
       ∧ mode_switch (final (motor_spin revolutions direction step_sleep quiet s))
         = mode_switch s)
  ∧ (∀ s,
       motor_retract_steps (final (button_interrupt s)) = motor_retract_steps s
       ∧ button_pushed (final (button_interrupt s)) = true).
Proof.
  split; [|split].
  - apply main_block_frame.
  - apply motor_spin_quiet_frame.
  - intros s. destruct (button_interrupt_frame s) as (? & _ & ?). done.
Qed.

Lemma shared_state_writers_witness :
  mode_of (final (main_block absent (mkFrame PPresence true 0) (pressed boot)))
  = Some MANUAL
  ∧ motor_retract_steps (final (button_interrupt (set_motor_retract_steps 7 boot)))
    = 7.
Proof.
  destruct shared_state_writers as (Hmain & _ & Hirq). split.
  - destruct (Hmain absent (mkFrame PPresence true 0) (pressed boot))
      as ((Hd & Hm & _) & _).
    unfold mode_of. rewrite Hd, Hm. reflexivity.
  - apply Hirq.
Defined.

(** C9, as stated, fails: the main flow writes three of the variables.  A
    block of [main] clears [mode_switch]; a call of [motor_spin] resets
    [motor_retract_steps], and clears [button_pushed] on its abort path. *)
Lemma main_flow_writes_counterexample :
  let s := pressed (set_motor_retract_steps 7 boot) in
  mode_switch (final (main_block absent (mkFrame PPresence true 0) s))
    ≠ mode_switch s
  ∧ motor_retract_steps (final (motor_spin 1 (Some false) step_sleep_open quiet s))
    ≠ motor_retract_steps s
  ∧ button_pushed (final (motor_spin 1 (Some false) step_sleep_open quiet s))
    ≠ button_pushed s.
Proof. vm_compute. by repeat split. Qed.

(** * Further properties of the code *)

(** ** The defensive branches *)

Lemma history_log e s : history (log e s) = history s ++ [e].
Proof. done. Qed.

Lemma history_cleaned s :
  history (cleaned s)
  = history s ++ [EPin pin_motor_1 false; EPin pin_motor_2 false;
                  EPin pin_motor_3 false; EPin pin_motor_4 false].
Proof. unfold history. cbn [trace cleaned rev]. by rewrite <- !app_assoc. Qed.

(** The globals at the [exit] of the handler's defensive branch. *)
Lemma button_interrupt_faulted s :
  mode_of s = None →
  button_interrupt s
  = Exit 1 (log (EExit 1) (log (EPrint "State machine error") (log EOledShow
              (log (EOledText ubuntu_mono_15 "State machine error" None)
                 (cleaned (set_button_pushed true s)))))).
Proof. by destruct s as [[] [] bp sw r d l t]. Qed.

(** X1. With both mode flags set, a button edge takes the defensive branch
    of the handler (lines 106-111): the four motor outputs are forced low,
    the fault is written to the display and printed, and the program exits
    with code 1; [button_pushed] is set before, the other flags are left as
    they were. *)
Theorem button_interrupt_fault (s : state) :
  mode_debug s = true → mode_manual s = true →
  ∃ s', button_interrupt s = Exit 1 s'
      ∧ de_energised s'
      ∧ history s' =
          history s ++
          [EPin pin_motor_1 false; EPin pin_motor_2 false;
           EPin pin_motor_3 false; EPin pin_motor_4 false;
           EOledText ubuntu_mono_15 "State machine error" None;
           EOledShow; EPrint "State machine error"; EExit 1]
      ∧ button_pushed s' = true
      ∧ mode_of s' = None
      ∧ mode_switch s' = mode_switch s
      ∧ motor_retract_steps s' = motor_retract_steps s.
Proof.
  intros Hd Hm.
  exists (log (EExit 1) (log (EPrint "State machine error") (log EOledShow
           (log (EOledText ubuntu_mono_15 "State machine error" None)
              (cleaned (set_button_pushed true s)))))).
  split; [apply button_interrupt_faulted; unfold mode_of; by rewrite Hd, Hm|].
  split; [apply (de_energised_levels (cleaned (set_button_pushed true s)));
          [done|apply de_energised_cleaned]|].
  split; [rewrite !history_log, history_cleaned; by rewrite <- !app_assoc|].
  repeat split. unfold mode_of. cbn. by rewrite Hd, Hm.
Qed.

Lemma button_interrupt_fault_witness :
  ∃ s', button_interrupt (set_mode_debug true (set_mode_manual true boot))
        = Exit 1 s'
      ∧ de_energised s'
      ∧ mode_of s' = None.
Proof.
  destruct (button_interrupt_fault
              (set_mode_debug true (set_mode_manual true boot)))
    as (s' & E & Hde & _ & _ & Hm & _); [reflexivity|reflexivity|].
  by exists s'.
Defined.

(** ** [motor_cleanup] *)

Lemma not_motor_pin p :
  p ∉ motor_pins →
  p ≠ pin_motor_1 ∧ p ≠ pin_motor_2 ∧ p ≠ pin_motor_3 ∧ p ≠ pin_motor_4.
Proof.
  intros H. repeat split; intros ->; apply H;
    apply list_elem_of_In; cbn; tauto.
Qed.

(** X2. [motor_cleanup] always returns, with the four motor outputs low;
    it leaves every other GPIO line, the shared variables and the baseline
    as they were, logs four low writes in the order of [motor_pins], and a
    second call changes no level. *)
Theorem motor_cleanup_spec (s : state) :
  ∃ s', motor_cleanup s = Ret tt s'
      ∧ de_energised s'
      ∧ (∀ p, p ∉ motor_pins → levels s' !! p = levels s !! p)
      ∧ shared s' = shared s
      ∧ previous_distance s' = previous_distance s
      ∧ history s' =
          history s ++ [EPin pin_motor_1 false; EPin pin_motor_2 false;
                        EPin pin_motor_3 false; EPin pin_motor_4 false]
      ∧ levels (final (motor_cleanup s')) = levels s'.
Proof.
  exists (cleaned s). split; [apply motor_cleanup_cleaned|].
  split; [apply de_energised_cleaned|].
  split.
  { intros p Hp. apply not_motor_pin in Hp as (H1 & H2 & H3 & H4).
    cbn [cleaned levels]. by rewrite !lookup_insert_ne. }
  split; [done|]. split; [done|]. split; [apply history_cleaned|].
  rewrite motor_cleanup_cleaned. cbn [final cleaned levels].
  apply map_eq. intros p. rewrite !lookup_insert.
  repeat case_decide; done.
Qed.

(** ** Edge cases of [motor_spin] *)

Lemma history_phase_0 s :
  history (phase_0 s)
  = history s ++ [EPin pin_motor_1 true; EPin pin_motor_2 false;
                  EPin pin_motor_3 false; EPin pin_motor_4 false].
Proof. unfold history. cbn [trace phase_0 rev]. by rewrite <- !app_assoc. Qed.

(** X3. Called with a direction that is equal to neither [True] nor
    [False] and at least one step to do, and with the button not pressed
    during the call, [motor_spin] notices the direction only after the
    first row of the phase table is on the outputs (lines 166-175): it
    prints its message, forces the four outputs low and exits with code 1,
    without a sleep; [motor_retract_steps] is 0 and the call itself leaves
    [button_pushed] and [mode_switch] as they were. *)
Theorem motor_spin_bad_direction (revolutions : Z) (step_sleep : Q)
    (s : state) :
  0 < revolutions →
  ∃ s', motor_spin revolutions None step_sleep quiet s = Exit 1 s'
      ∧ de_energised s'
      ∧ history s' =
          history s ++
          [EPin pin_motor_1 false; EPin pin_motor_2 false;
           EPin pin_motor_3 false; EPin pin_motor_4 false;
           EPin pin_motor_1 true; EPin pin_motor_2 false;
           EPin pin_motor_3 false; EPin pin_motor_4 false;
           EPrint "uh oh... direction should *always* be either True or False";
           EPin pin_motor_1 false; EPin pin_motor_2 false;
           EPin pin_motor_3 false; EPin pin_motor_4 false;
           EExit 1]
      ∧ button_pushed s' = button_pushed s
      ∧ mode_switch s' = mode_switch s
      ∧ motor_retract_steps s' = 0.
Proof.
  intros Hrev. rewrite motor_spin_loop.
  destruct (Z.to_nat (revolutions * step_count)) as [|todo] eqn:En;
    [unfold step_count in En; lia|].
  clear En Hrev. cbn [spin_loop].
  rewrite (bind_Ret _ _ _ _ _ (write_phase_0 _)).
  rewrite (bind_Exit _ _ _ _ _ (advance_None 0 _)).
  eexists. split; [reflexivity|].
  split; [eapply de_energised_levels; [|apply de_energised_cleaned]; done|].
  split; [|done].
  rewrite history_log, history_cleaned, history_log, history_phase_0,
    history_cleaned.
  by rewrite <- !app_assoc.
Qed.

Lemma motor_spin_bad_direction_witness :
  ∃ s', motor_spin 1 None step_sleep_close quiet boot = Exit 1 s'
      ∧ de_energised s'
      ∧ count_events is_sleep (history s') = 0%nat.
Proof.
  destruct (motor_spin_bad_direction 1 step_sleep_close boot)
    as (s' & E & Hde & Hh & _); [lia|].
  exists s'. rewrite Hh. by repeat split.
Defined.

(** X4. Called for no revolution, or for a negative number of them, the
    range of line 165 is empty: [motor_spin] returns after its
    initialisation, with [motor_retract_steps] 0 and the four outputs low,
    without a step or a sleep, whatever the direction (a bad one is not
    noticed), the flag and the button. *)
Theorem motor_spin_no_steps (revolutions : Z) (direction : option bool)
    (step_sleep : Q) (irq : nat → nat) (s : state) :
  revolutions ≤ 0 →
  ∃ s', motor_spin revolutions direction step_sleep irq s = Ret Exhausted s'
      ∧ de_energised s'
      ∧ history s' =
          history s ++ [EPin pin_motor_1 false; EPin pin_motor_2 false;
                        EPin pin_motor_3 false; EPin pin_motor_4 false]
      ∧ motor_retract_steps s' = 0
      ∧ button_pushed s' = button_pushed s
      ∧ mode_of s' = mode_of s
      ∧ mode_switch s' = mode_switch s.
Proof.
  intros Hrev. rewrite motor_spin_loop.
  replace (Z.to_nat (revolutions * step_count)) with 0%nat
    by (unfold step_count; lia).
  eexists. split; [reflexivity|].
  split; [apply de_energised_cleaned|].
  split; [exact (history_cleaned (set_motor_retract_steps 0 s))|done].
Qed.

Lemma motor_spin_no_steps_witness :
  ∃ s', motor_spin (-2) None step_sleep_open (edge_at 0)
          (set_button_pushed true boot) = Ret Exhausted s'
      ∧ de_energised s'
      ∧ button_pushed s' = true.
Proof.
  destruct (motor_spin_no_steps (-2) None step_sleep_open (edge_at 0)
              (set_button_pushed true boot))
    as (s' & E & Hde & _ & _ & Hb & _); [lia|].
  by exists s'.
Defined.

(** ** A sequence that runs to its end *)

Lemma write_phase_phased c s :
  0 ≤ c < 4 → write_phase c s = Ret tt (phased c s).
Proof.
  intros Hc. destruct s as [d m bp sw r prev l t].
  assert (c = 0 ∨ c = 1 ∨ c = 2 ∨ c = 3) as [ -> | [ -> | [ -> | -> ] ] ]
    by lia; reflexivity.
Qed.

Lemma spin_loop_quiet_spun b sl : ∀ todo i c s,
  0 ≤ c < 4 → button_pushed s = false →
  spin_loop todo i c (Some b) sl quiet s = Ret Exhausted (spun b sl todo c s).
Proof.
  induction todo as [|todo IH]; intros i c s Hc Hbp; [done|].
  rewrite spin_loop_turn, (write_phase_phased c s Hc).
  cbn [quiet button_edges mret M_ret phased button_pushed]. rewrite Hbp.
  cbn [spun]. apply IH; [apply next_phase_range|done].
Qed.

Lemma spun_shared b sl : ∀ todo c s, shared (spun b sl todo c s) = shared s.
Proof.
  induction todo as [|todo IH]; intros c s; [done|].
  cbn [spun]. by rewrite IH.
Qed.

Lemma spun_sleeps b sl : ∀ todo c s,
  count_events is_sleep (trace (spun b sl todo c s))
  = (todo + count_events is_sleep (trace s))%nat.
Proof.
  induction todo as [|todo IH]; intros c s; [done|].
  cbn [spun]. rewrite IH. cbn [trace log phased].
  rewrite !count_events_cons. cbn [is_sleep]. lia.
Qed.

Lemma energised_app h h' : energised (h ++ h') = energised h ++ energised h'.
Proof.
  induction h as [|e h IH]; [done|].
  destruct e as [p [] | | | | | | |]; cbn [app energised]; try done.
  case_bool_decide; by rewrite IH.
Qed.

Lemma history_phased c s :
  history (phased c s)
  = history s ++ [EPin pin_motor_1 (c =? 0); EPin pin_motor_2 (c =? 1);
                  EPin pin_motor_3 (c =? 2); EPin pin_motor_4 (c =? 3)].
Proof. unfold history. cbn [trace phased rev]. by rewrite <- !app_assoc. Qed.

Lemma energised_turn c sl s :
  0 ≤ c < 4 →
  energised (history (log (ESleep sl) (phased c s)))
  = energised (history s) ++ [phase_pin c].
Proof.
  intros Hc. rewrite history_log, history_phased, !energised_app.
  rewrite app_nil_r. f_equal.
  assert (c = 0 ∨ c = 1 ∨ c = 2 ∨ c = 3) as [ -> | [ -> | [ -> | -> ] ] ]
    by lia; reflexivity.
Qed.

Lemma iter_next_phase b k c :
  0 ≤ c < 4 →
  Nat.iter k (next_phase b) c
  = if b then (c - Z.of_nat k) mod 4 else (c + Z.of_nat k) mod 4.
Proof.
  intros Hc. induction k as [|k IH].
  - cbn [Nat.iter nat_rect]. destruct b; rewrite Z.mod_small; lia.
  - rewrite Nat.iter_succ, IH. unfold next_phase. destruct b.
    + rewrite Zminus_mod_idemp_l. f_equal. lia.
    + rewrite Zplus_mod_idemp_l. f_equal. lia.
Qed.

Lemma iter_next_phase_0 b k : Nat.iter k (next_phase b) 0 = phase_at b k.
Proof.
  rewrite iter_next_phase by lia. unfold phase_at. destruct b; f_equal; lia.
Qed.

Lemma spun_energised b sl : ∀ todo c s,
  0 ≤ c < 4 →
  energised (history (spun b sl todo c s))
  = energised (history s)
    ++ map (λ k, phase_pin (Nat.iter k (next_phase b) c)) (seq 0 todo).
Proof.
  induction todo as [|todo IH]; intros c s Hc.
  - cbn [spun seq map]. by rewrite app_nil_r.
  - cbn [spun]. rewrite IH by apply next_phase_range.
    rewrite energised_turn by done. rewrite <- app_assoc. f_equal.
    cbn [seq map app Nat.iter nat_rect]. f_equal.
    rewrite <- seq_shift, map_map. apply map_ext. intros k.
    by rewrite <- Nat.iter_succ_r.
Qed.

Lemma spun_last_row b sl : ∀ todo c s,
  0 ≤ c < 4 →
  levels (spun b sl (S todo) c s) !! pin_motor_1
    = Some (Nat.iter todo (next_phase b) c =? 0)
  ∧ levels (spun b sl (S todo) c s) !! pin_motor_2
    = Some (Nat.iter todo (next_phase b) c =? 1)
  ∧ levels (spun b sl (S todo) c s) !! pin_motor_3
    = Some (Nat.iter todo (next_phase b) c =? 2)
  ∧ levels (spun b sl (S todo) c s) !! pin_motor_4
    = Some (Nat.iter todo (next_phase b) c =? 3).
Proof.
  induction todo as [|todo IH]; intros c s Hc.
  - cbn [spun Nat.iter nat_rect levels log phased].
    rewrite !lookup_insert. repeat split; repeat case_decide; done.
  - change (spun b sl (S (S todo)) c s)
      with (spun b sl (S todo) (next_phase b c) (log (ESleep sl) (phased c s))).
    rewrite Nat.iter_succ_r. apply IH, next_phase_range.
Qed.

Lemma last_phase (revolutions : Z) (b : bool) todo :
  Z.to_nat (revolutions * step_count) = S todo →
  phase_at b todo = if b then 1 else 3.
Proof.
  unfold step_count, phase_at. intros En.
  assert (Z.of_nat todo = revolutions * 2048 - 1) as -> by lia.
  destruct b.
  - replace (- (revolutions * 2048 - 1)) with (1 + (- (512 * revolutions)) * 4)
      by lia.
    by rewrite Z_mod_plus_full.
  - replace (revolutions * 2048 - 1) with (3 + (512 * revolutions - 1) * 4)
      by lia.
    by rewrite Z_mod_plus_full.
Qed.

Lemma shared_fields s s' :
  shared s' = shared s →
  mode_of s' = mode_of s
  ∧ button_pushed s' = button_pushed s
  ∧ mode_switch s' = mode_switch s
  ∧ motor_retract_steps s' = motor_retract_steps s.
Proof.
  intros H. split; [by apply shared_mode_of|].
  revert H. unfold shared. by intros [= _ _ -> -> ->].
Qed.

(** X5. A call of [motor_spin] for [revolutions > 0] in direction [b],
    entered with the flag clear and not disturbed by the button, runs its
    [revolutions * step_count] steps with one sleep after each and
    returns, [motor_retract_steps] being 0 and the flags as they were.  The
    outputs are left on the last row written: the fourth output high after
    a run in direction [False], the second after a run in direction
    [True], the other three low. *)
Theorem motor_spin_completed (revolutions : Z) (b : bool) (step_sleep : Q)
    (s : state) :
  button_pushed s = false → 0 < revolutions →
  ∃ s', motor_spin revolutions (Some b) step_sleep quiet s = Ret Exhausted s'
      ∧ count_events is_sleep (trace s')
        = (Z.to_nat (revolutions * step_count)
           + count_events is_sleep (trace s))%nat
      ∧ levels s' !! pin_motor_1 = Some false
      ∧ levels s' !! pin_motor_2 = Some b
      ∧ levels s' !! pin_motor_3 = Some false
      ∧ levels s' !! pin_motor_4 = Some (negb b)
      ∧ motor_retract_steps s' = 0
      ∧ button_pushed s' = false
      ∧ mode_of s' = mode_of s
      ∧ mode_switch s' = mode_switch s.
Proof.
  intros Hbp Hrev. rewrite motor_spin_loop.
  set (s0 := cleaned (set_motor_retract_steps 0 s)).
  rewrite (spin_loop_quiet_spun b step_sleep _ 0%nat 0 s0) by (done || lia).
  eexists. split; [reflexivity|].
  split; [by rewrite spun_sleeps|].
  destruct (shared_fields _ _
              (spun_shared b step_sleep
                 (Z.to_nat (revolutions * step_count)) 0 s0))
    as (Hmode & Hb & Hw & Hr).
  rewrite Hmode, Hb, Hw, Hr.
  destruct (Z.to_nat (revolutions * step_count)) as [|todo] eqn:En;
    [unfold step_count in En; lia|].
  destruct (spun_last_row b step_sleep todo 0 s0) as (H1 & H2 & H3 & H4);
    [lia|].
  rewrite iter_next_phase_0, (last_phase revolutions b todo En) in H1, H2, H3, H4.
  rewrite H1, H2, H3, H4. by destruct b.
Qed.

Lemma motor_spin_completed_witness :
  ∃ s', motor_spin 2 (Some true) step_sleep_close quiet boot = Ret Exhausted s'
      ∧ count_events is_sleep (trace s') = 4096%nat
      ∧ levels s' !! pin_motor_2 = Some true
      ∧ levels s' !! pin_motor_4 = Some false.
Proof.
  destruct (motor_spin_completed 2 true step_sleep_close boot)
    as (s' & E & Hs & _ & H2 & _ & H4 & _); [reflexivity|lia|].
  exists s'. rewrite Hs, H2, H4. by repeat split.
Defined.

(** X6. The order of the phases.  In a call entered with the flag clear and
    not disturbed by the button, turn [k] of the loop drives high the
    output of row [k mod 4] of the phase table for direction [False] and of
    row [(- k) mod 4] for direction [True], and only that one: the outputs
    are energised in the order 1, 2, 3, 4, 1, ... one way and
    1, 4, 3, 2, 1, ... the other way. *)
Theorem motor_spin_phase_order (revolutions : Z) (b : bool) (step_sleep : Q)
    (s : state) :
  button_pushed s = false →
  energised (history (final (motor_spin revolutions (Some b) step_sleep quiet s)))
  = energised (history s)
    ++ map (λ k, phase_pin (phase_at b k))
           (seq 0 (Z.to_nat (revolutions * step_count))).
Proof.
  intros Hbp. rewrite motor_spin_loop.
  rewrite (spin_loop_quiet_spun b step_sleep _ 0%nat 0
             (cleaned (set_motor_retract_steps 0 s))) by (done || lia).
  cbn [final]. rewrite spun_energised by lia.
  f_equal.
  - change (history (cleaned (set_motor_retract_steps 0 s)))
      with (history (cleaned s)).
    rewrite history_cleaned, energised_app. cbn. by rewrite app_nil_r.
  - apply map_ext. intros k. by rewrite iter_next_phase_0.
Qed.

Lemma motor_spin_phase_order_witness :
  take 6 (energised (history (final
            (motor_spin 1 (Some true) step_sleep_close quiet boot))))
  = [pin_motor_1; pin_motor_4; pin_motor_3; pin_motor_2;
     pin_motor_1; pin_motor_4].
Proof.
  rewrite (motor_spin_phase_order 1 true step_sleep_close boot) by reflexivity.
  reflexivity.
Defined.

(** ** The baseline of the presence detector *)

Lemma detect_presence_unseen env s :
  adc_u16 env ≤ brightness_threshold →
  (Qabs (echo_cm env - previous_distance s) <= inject_Z motion_threshold)%Q →
  ∃ s', detect_presence env s = Ret false s'
      ∧ previous_distance s' = echo_cm env
      ∧ shared s' = shared s.
Proof.
  intros Hb Hd.
  destruct (detect_presence_returns env s)
    as (s' & E & Hp & H1 & H2 & H3 & H4 & H5).
  exists s'. split; [|split; [done|unfold shared; congruence]].
  rewrite E. f_equal.
  apply Qabs_Qle_condition in Hd as [Hlo Hhi].
  rewrite !orb_false_iff. repeat split.
  - rewrite Z.gtb_ltb. apply Z.ltb_ge. lia.
  - unfold Qgtb. apply not_true_iff_false. rewrite Qltb_lt. lra.
  - apply not_true_iff_false. rewrite Qltb_lt. lra.
Qed.

(** X7. The baseline follows every reading, so a slow approach is never
    seen: in a series of polls with the light off in which the distance
    moves by at most [motion_threshold] from each poll to the next, every
    verdict is false, however far the distance drifts in all; the baseline
    ends on the last reading and the shared variables are untouched. *)
Theorem slow_approach_unseen (envs : list sensors) : ∀ (s : state),
  gentle (previous_distance s) envs →
  ∃ s', poll_all envs s = Ret (replicate (length envs) false) s'
      ∧ previous_distance s'
        = default (previous_distance s) (echo_cm <$> last envs)
      ∧ shared s' = shared s.
Proof.
  induction envs as [|env envs IH]; intros s Hg.
  - by exists s.
  - destruct Hg as (Hb & Hd & Hg).
    destruct (detect_presence_unseen env s Hb Hd) as (s1 & E1 & Hp1 & Hs1).
    rewrite <- Hp1 in Hg.
    destruct (IH s1 Hg) as (s' & E & Hp & Hs).
    exists s'. cbn [poll_all].
    rewrite (bind_Ret _ _ _ _ _ E1), (bind_Ret _ _ _ _ _ E).
    split; [done|]. split; [|congruence].
    rewrite Hp, Hp1, last_cons. by destruct (last envs).
Qed.

Lemma gentle_approach : ∀ polls k,
  gentle (inject_Z (165 - 4 * Z.of_nat k))
    (map (λ j, mkSensors 100 (inject_Z (165 - 4 * Z.of_nat (S j))))
         (seq k polls)).
Proof.
  induction polls as [|polls IH]; intros k; [done|].
  cbn [seq map gentle adc_u16 echo_cm]. split; [done|]. split; [|apply IH].
  unfold motion_threshold. apply Qabs_Qle_condition.
  unfold Qminus, Qplus, Qopp, Qle, inject_Z. cbn [Qnum Qden]. lia.
Qed.

Lemma slow_approach_unseen_witness :
  ∃ s', poll_all (approach 40) boot = Ret (replicate 40 false) s'
      ∧ previous_distance s' = inject_Z 5.
Proof.
  destruct (slow_approach_unseen (approach 40) boot) as (s' & E & Hp & _).
  - apply (gentle_approach 40 0).
  - exists s'. split; [exact E|]. rewrite Hp. reflexivity.
Defined.

(** ** Invariants of [main] *)

(** A block of [main] returns. *)
Lemma main_block_is_ret env f s : is_ret (main_block env f s) = true.
Proof.
  destruct s as [d m bp sw r prev l t], f as [[] p ts]; unfold main_block;
    destruct d, m, p, sw; try destruct (ts >=? action_after_seconds) eqn:?;
    run; rewrite ?Heqb; reflexivity.
Qed.

Lemma is_ret_Ret {A} (o : outcome A) :
  is_ret o = true → ∃ a, o = Ret a (final o).
Proof. destruct o as [a s|]; [by exists a|done]. Qed.

Lemma main_block_returns env f s :
  ∃ f', main_block env f s = Ret f' (final (main_block env f s)).
Proof. apply is_ret_Ret, main_block_is_ret. Qed.

Ltac exec := repeat (progress (unfold motor_cleanup, detect_presence; run)).

Ltac same_levels :=
  match goal with |- ?x = ?y => constr_eq x y; reflexivity end.

(** All a block of [main] does to the GPIO lines is to force the motor
    outputs low, to pulse the trigger line, or both; the block at the top
    of [main] does force the motor outputs low. *)
Lemma main_block_levels env f s :
  (levels (final (main_block env f s)) = levels s
   ∨ levels (final (main_block env f s)) = triggered (levels s)
   ∨ levels (final (main_block env f s)) = levels (cleaned s)
   ∨ levels (final (main_block env f s)) = triggered (levels (cleaned s)))
  ∧ (pc f = PTop →
     levels (final (main_block env f s)) = levels (cleaned s)
     ∨ levels (final (main_block env f s)) = triggered (levels (cleaned s))).
Proof.
  destruct s as [d m bp sw r prev l t], f as [[] p ts]; unfold main_block;
    destruct d, m, p, sw; try destruct (ts >=? action_after_seconds) eqn:?;
    unfold triggered, cleaned; exec; rewrite ?Heqb; exec;
    (split;
     [first [left; same_levels | right; left; same_levels
            | right; right; left; same_levels
            | right; right; right; same_levels]
     |intros Hpc; first [discriminate Hpc | left; same_levels
                        | right; same_levels]]).
Qed.

Lemma low_triggered (l : gmap nat bool) p :
  p ∈ motor_pins → triggered l !! p = l !! p.
Proof.
  intros Hp. unfold triggered. rewrite !lookup_insert_ne; [done|..];
    intros <-; revert Hp; unfold motor_pins;
    rewrite !elem_of_cons, elem_of_nil; by intros [|[|[|[|]]]].
Qed.

Lemma main_block_de_energised env f s :
  de_energised s ∨ pc f = PTop → de_energised (final (main_block env f s)).
Proof.
  intros H. destruct (main_block_levels env f s) as (Hl & Htop).
  intros p Hp.
  assert (levels (cleaned s) !! p = Some false) as Hc
    by (by apply de_energised_cleaned).
  destruct H as [Hde|Hpc].
  - destruct Hl as [ -> | [ -> | [ -> | -> ] ] ]; rewrite ?low_triggered by done;
      try done; by apply Hde.
  - destruct (Htop Hpc) as [ -> | -> ]; rewrite ?low_triggered by done; done.
Qed.

Lemma button_interrupt_de_energised s :
  de_energised s → de_energised (final (button_interrupt s)).
Proof.
  intros Hde. destruct (mode_of s) as [m|] eqn:Hm.
  - rewrite button_interrupt_pressed by (by exists m).
    by apply (de_energised_levels s).
  - rewrite button_interrupt_faulted by done. cbn [final].
    apply (de_energised_levels (cleaned (set_button_pushed true s)));
      [done|apply de_energised_cleaned].
Qed.

Lemma button_edges_de_energised n : ∀ s,
  de_energised s → de_energised (final (button_edges n s)).
Proof.
  induction n as [|n IH]; intros s Hde; [done|].
  cbn [button_edges]. unfold mbind, M_bind.
  pose proof (button_interrupt_de_energised s Hde) as H.
  destruct (button_interrupt s) as [[] s1|code s1]; cbn [final] in *;
    [by apply IH|done].
Qed.

Lemma main_step_final inp f s :
  final (main_step inp f s)
  = final (button_edges (edges inp) (final (main_block (readings inp) f s))).
Proof.
  unfold main_step.
  destruct (main_block_returns (readings inp) f s) as (f1 & E).
  rewrite (bind_Ret _ _ _ _ _ E). unfold mbind, M_bind.
  by destruct (button_edges (edges inp) _) as [[] s2|code s2].
Qed.

Lemma main_run_de_energised inps : ∀ f s,
  de_energised s → de_energised (final (main_run inps f s)).
Proof.
  induction inps as [|inp inps IH]; intros f s Hde; [done|].
  cbn [main_run]. unfold mbind, M_bind.
  assert (de_energised (final (main_step inp f s))) as H.
  { rewrite main_step_final.
    by apply button_edges_de_energised, main_block_de_energised; left. }
  destruct (main_step inp f s) as [f1 s1|code s1]; cbn [final] in *;
    [by apply IH|done].
Qed.

(** X8. Once [main] has run its first block, the four motor outputs are
    low and stay low: whatever the globals were at entry, whatever the
    sensors give and whenever the button is pressed, every run of [main]
    from its entry ends with the outputs low. *)
Theorem main_outputs_stay_low (inp : input) (inps : list input) (s : state) :
  de_energised (final (main_run (inp :: inps) main_entry s)).
Proof.
  cbn [main_run]. unfold mbind, M_bind.
  assert (de_energised (final (main_step inp main_entry s))) as H.
  { rewrite main_step_final.
    by apply button_edges_de_energised, main_block_de_energised; right. }
  destruct (main_step inp main_entry s) as [f1 s1|code s1]; cbn [final] in *;
    [by apply main_run_de_energised|done].
Qed.

Lemma main_block_mode env f s :
  mode_of (final (main_block env f s)) = mode_of s.
Proof.
  destruct (main_block_frame env f s) as ((Hd & Hm & _) & _).
  unfold mode_of. by rewrite Hd, Hm.
Qed.

(** A block of [main] logs no [exit]. *)
Lemma main_block_no_exit env f s :
  count_events is_exit (trace (final (main_block env f s)))
  = count_events is_exit (trace s).
Proof.
  destruct s as [d m bp sw r prev l t], f as [[] p ts]; unfold main_block;
    destruct d, m, p, sw; try destruct (ts >=? action_after_seconds) eqn:?;
    run; rewrite ?count_events_cons; try done; rewrite ?Heqb; done.
Qed.

(** In the embedding, where every poll completes, a run of [main] from one
    of the three modes goes through all its blocks and keeps the mode flags
    on one of the three modes. *)
Lemma main_run_mode (inps : list input) : ∀ (f : frame) (s : state),
  is_Some (mode_of s) →
  ∃ f' s', main_run inps f s = Ret f' s' ∧ is_Some (mode_of s').
Proof.
  induction inps as [|inp inps IH]; intros f s Hv; [by exists f, s|].
  cbn [main_run]. unfold main_step.
  destruct (main_block_returns (readings inp) f s) as (f1 & E1).
  pose proof (main_block_mode (readings inp) f s) as Hm1.
  set (s1 := final (main_block (readings inp) f s)) in *.
  destruct Hv as [m Hm]. rewrite <- Hm1 in Hm.
  destruct (button_edges_spec (edges inp) s1 m Hm) as (s2 & E2 & Hm2 & _).
  destruct (IH f1 s2) as (f' & s' & E & Hv'); [by eexists|].
  exists f', s'. split; [|done].
  unfold mbind, M_bind, mret, M_ret. rewrite E1. cbn beta iota.
  rewrite E2. exact E.
Qed.

(** X9. The defensive branch of the handler is out of reach of [main].
    From globals that encode one of the three modes, whatever the sensors
    give and whenever the button is pressed, as far as a run of [main]
    goes the mode flags encode one of the three modes, so that no button
    edge takes the branch of lines 106-111: the run does not end in
    [exit], and no [exit] is logged. *)
Theorem handler_fault_unreachable (inps : list input) (f : frame) (s : state) :
  is_Some (mode_of s) →
  is_Some (mode_of (final (main_run inps f s)))
  ∧ (∀ code s', main_run inps f s ≠ Exit code s')
  ∧ count_events is_exit (trace (final (main_run inps f s)))
    = count_events is_exit (trace s).
Proof.
  intros Hv.
  destruct (main_run_mode inps f s Hv) as (f' & s' & E & Hv').
  split; [by rewrite E|]. split; [by rewrite E|].
  clear E Hv' f' s'. revert f s Hv.
  induction inps as [|inp inps IH]; intros f s Hv; [done|].
  cbn [main_run]. unfold main_step.
  destruct (main_block_returns (readings inp) f s) as (f1 & E1).
  pose proof (main_block_mode (readings inp) f s) as Hm1.
  pose proof (main_block_no_exit (readings inp) f s) as Hx1.
  set (s1 := final (main_block (readings inp) f s)) in *.
  destruct Hv as [m Hm]. rewrite <- Hm1 in Hm.
  destruct (button_edges_spec (edges inp) s1 m Hm)
    as (s2 & E2 & Hm2 & _ & _ & _ & _ & _ & Ht2).
  unfold mbind, M_bind, mret, M_ret. rewrite E1. cbn beta iota.
  rewrite E2. rewrite (IH f1 s2) by (by eexists). by rewrite Ht2.
Qed.

Lemma handler_fault_unreachable_witness :
  is_Some (mode_of (final
    (main_run [mkInput present 1; mkInput absent 4; mkInput absent 0]
       main_entry boot)))
  ∧ count_events is_exit (trace (final
      (main_run [mkInput present 1; mkInput absent 4; mkInput absent 0]
         main_entry boot))) = 0%nat.
Proof.
  destruct (handler_fault_unreachable
              [mkInput present 1; mkInput absent 4; mkInput absent 0]
              main_entry boot) as (Hm & _ & Hx); [by exists AUTOMATIC|].
  split; [exact Hm|exact Hx].
Defined.

(** ** The loops of [main] *)

Lemma main_step_undisturbed env f s :
  main_step (undisturbed env) f s = main_block env f s.
Proof.
  unfold main_step, undisturbed. cbn [readings edges button_edges].
  unfold mbind, M_bind, mret, M_ret.
  by destruct (main_block env f s).
Qed.

Lemma main_run_undisturbed_cons env envs f s f1 s1 :
  main_block env f s = Ret f1 s1 →
  main_run (undisturbed <$> env :: envs) f s
  = main_run (undisturbed <$> envs) f1 s1.
Proof.
  intros E. cbn [fmap list_fmap main_run].
  by rewrite (bind_Ret _ _ _ _ _
                (eq_trans (main_step_undisturbed env f s) E)).
Qed.

(** What a poll logs: the trigger pulse and the verdict. *)
Lemma detect_presence_logs env s :
  ∃ v, trace (final (detect_presence env s))
       = EPrint ("Presence detected:  " ++ py_bool v)
         :: EPin pin_hcsr04_trigger false :: ESleepUs 5
         :: EPin pin_hcsr04_trigger true :: ESleepUs 2
         :: EPin pin_hcsr04_trigger false :: trace s.
Proof. destruct s as [d m bp sw r prev l t]. eexists. reflexivity. Qed.

(** A poll logs neither a close message nor a sleep. *)
Lemma detect_presence_trace env s :
  count_events is_close (trace (final (detect_presence env s)))
  = count_events is_close (trace s)
  ∧ count_events is_sleep (trace (final (detect_presence env s)))
    = count_events is_sleep (trace s).
Proof.
  destruct (detect_presence_logs env s) as [v ->].
  rewrite !count_events_cons. by destruct v.
Qed.

(** One turn of the absence-timing loop in which nobody is seen. *)
Lemma absence_block_wait env t s :
  mode_switch s = false → t < action_after_seconds →
  adc_u16 env ≤ brightness_threshold →
  (Qabs (echo_cm env - previous_distance s) <= inject_Z motion_threshold)%Q →
  ∃ s', main_block env (mkFrame PAbsence false t) s
        = Ret (mkFrame PAbsence false (t + 1)) s'
      ∧ previous_distance s' = echo_cm env
      ∧ shared s' = shared s
      ∧ count_events is_close (trace s') = count_events is_close (trace s)
      ∧ count_events is_sleep (trace s')
        = S (count_events is_sleep (trace s)).
Proof.
  intros Hsw Ht Hb Hd.
  destruct (detect_presence_unseen env
              (log (ESleep (inject_Z polling_interval_presence)) s) Hb Hd)
    as (s' & E & Hp & Hs).
  exists s'. split.
  - unfold main_block. run. rewrite Hsw.
    replace (t >=? action_after_seconds) with false
      by (symmetry; rewrite Z.geb_leb; apply Z.leb_gt; lia).
    run. by rewrite E.
  - split; [done|]. split; [done|].
    destruct (detect_presence_trace env
                (log (ESleep (inject_Z polling_interval_presence)) s))
      as (Hc & Hsl).
    rewrite E in Hc, Hsl. cbn [final] in Hc, Hsl.
    rewrite Hc, Hsl. cbn [trace log]. by rewrite !count_events_cons.
Qed.

Lemma absence_wait (envs : list sensors) : ∀ (t : Z) (s : state),
  mode_switch s = false →
  t + Z.of_nat (length envs) ≤ action_after_seconds →
  gentle (previous_distance s) envs →
  ∃ s', main_run (undisturbed <$> envs) (mkFrame PAbsence false t) s
        = Ret (mkFrame PAbsence false (t + Z.of_nat (length envs))) s'
      ∧ mode_switch s' = false
      ∧ count_events is_close (trace s') = count_events is_close (trace s)
      ∧ count_events is_sleep (trace s')
        = (length envs + count_events is_sleep (trace s))%nat.
Proof.
  induction envs as [|env envs IH]; intros t s Hsw Ht Hg.
  - exists s. cbn [length]. rewrite Z.add_0_r. by repeat split.
  - destruct Hg as (Hb & Hd & Hg). cbn [length] in Ht.
    destruct (absence_block_wait env t s Hsw ltac:(lia) Hb Hd)
      as (s1 & E1 & Hp1 & Hs1 & Hc1 & Hsl1).
    destruct (shared_fields _ _ Hs1) as (_ & _ & Hsw1 & _).
    rewrite <- Hp1 in Hg.
    destruct (IH (t + 1) s1) as (s' & E & Hsw' & Hc & Hsl);
      [congruence|lia|done|].
    exists s'. rewrite (main_run_undisturbed_cons _ _ _ _ _ _ E1), E.
    split; [do 2 f_equal; cbn [length]; lia|].
    split; [done|]. split; [congruence|].
    rewrite Hsl, Hsl1. cbn [length]. lia.
Qed.

(** X10. The absence timer.  In the absence-timing loop at elapsed time
    [t], with no switch request and the button not pressed, readings in
    which nobody is seen for the [action_after_seconds - t] polls that are
    left keep the loop turning, one sleep of [polling_interval_presence]
    and one poll per turn, without the close message; the turn that
    follows, at [action_after_seconds], prints the close message, powers
    the display off and leaves the loop, without a poll or a sleep. *)
Theorem absence_timer (envs : list sensors) (t : Z) (s : state) :
  mode_switch s = false →
  t + Z.of_nat (length envs) = action_after_seconds →
  gentle (previous_distance s) envs →
  ∃ s', main_run (undisturbed <$> envs) (mkFrame PAbsence false t) s
        = Ret (mkFrame PAbsence false action_after_seconds) s'
      ∧ count_events is_close (trace s') = count_events is_close (trace s)
      ∧ count_events is_sleep (trace s')
        = (length envs + count_events is_sleep (trace s))%nat
      ∧ ∀ env, main_block env (mkFrame PAbsence false action_after_seconds) s'
               = Ret (mkFrame PPresence false action_after_seconds)
                     (log EOledPoweroff (log (EPrint close_message) s')).
Proof.
  intros Hsw Ht Hg.
  destruct (absence_wait envs t s Hsw ltac:(lia) Hg)
    as (s' & E & Hsw' & Hc & Hsl).
  exists s'. rewrite E, Ht. repeat split; try done.
  intros env. unfold main_block. run. by rewrite Hsw'.
Qed.

Lemma absence_timer_witness :
  ∃ s', main_run (undisturbed <$> approach 10) (mkFrame PAbsence false 50) boot
        = Ret (mkFrame PAbsence false action_after_seconds) s'
      ∧ count_events is_close (trace s') = 0%nat
      ∧ count_events is_sleep (trace s') = 10%nat.
Proof.
  destruct (absence_timer (approach 10) 50 boot) as (s' & E & Hc & Hsl & _).
  - reflexivity.
  - reflexivity.
  - apply (gentle_approach 10 0).
  - by exists s'.
Defined.

(** Leaving the absence-timing loop, and with it the presence-tracking
    loop, on a switch request. *)
Lemma absence_leave env env' v t s :
  mode_switch s = true →
  main_run [undisturbed env; undisturbed env'] (mkFrame PAbsence v t) s
  = Ret (mkFrame PStandby v t) (set_mode_switch (negb v) s).
Proof.
  intros Hsw. destruct s as [d m bp sw r prev l tr]. cbn in Hsw. subst sw.
  by destruct v.
Qed.

(** X11. A switch request seen in the AUTOMATIC loops, whichever of the two
    loop tests control is at: both loops are left for line 216 without a
    poll, a sleep or any other effect, in one block from the test of the
    presence-tracking loop and in two from the test of the absence-timing
    loop; [mode_switch] is cleared exactly when [presence_detected] is true
    at that point, and left set when it is false. *)
Theorem auto_loops_leave_on_request (env env' : sensors) (f : frame)
    (s : state) :
  mode_switch s = true →
  (pc f = PPresence →
   main_block env f s
   = Ret (goto PStandby f) (set_mode_switch (negb (presence_detected f)) s))
  ∧ (pc f = PAbsence →
     main_run [undisturbed env; undisturbed env'] f s
     = Ret (goto PStandby f)
           (set_mode_switch (negb (presence_detected f)) s)).
Proof.
  intros Hsw. destruct s as [d m bp sw r prev l t]. cbn in Hsw. subst sw.
  destruct f as [p [] ts]; split; intros Hpc; cbn [pc] in Hpc; subst p;
    try reflexivity.
Qed.

Lemma auto_loops_leave_on_request_witness :
  main_run [undisturbed present; undisturbed absent]
    (mkFrame PAbsence true 12) (pressed boot)
  = Ret (mkFrame PStandby true 12) (set_mode_switch false (pressed boot)).
Proof.
  destruct (auto_loops_leave_on_request present absent
              (mkFrame PAbsence true 12) (pressed boot)) as [_ H];
    [reflexivity|].
  by apply H.
Defined.

Lemma manual_block f s :
  pc f = PManual → mode_switch s = false →
  ∀ env, main_block env f s
         = Ret f (log (EOledText ubuntu_mono_15 "MANUAL mode" (Some (0, 0)))
                    (log EOledPoweroff (cleaned (log (EPrint close_message) s)))).
Proof.
  intros Hpc Hsw env. destruct s as [d m bp sw r prev l t]. cbn in Hsw.
  subst sw. destruct f as [p pr ts]. cbn [pc] in Hpc. by subst p.
Qed.

Lemma debug_block f s :
  pc f = PDebug → mode_switch s = false →
  ∀ env, main_block env f s
         = Ret f (log (EOledText ubuntu_mono_15 "DEBUG mode" (Some (0, 0)))
                    (log EOledPoweroff (cleaned s))).
Proof.
  intros Hpc Hsw env. destruct s as [d m bp sw r prev l t]. cbn in Hsw.
  subst sw. destruct f as [p pr ts]. cbn [pc] in Hpc. by subst p.
Qed.

(** X12. The MANUAL and the DEBUG loop are left through [mode_switch]
    only.  With no request pending and the button not pressed, every turn
    of either loop comes back to the top of the same loop, whatever the
    mode flags say; it forces the motor outputs low, never polls a sensor
    (the baseline stays) and never sleeps.  A
    turn of the MANUAL loop prints the close message, so [n] turns print it
    [n] times; a turn of the DEBUG loop does not. *)
Theorem idle_loops (envs : list sensors) : ∀ (f : frame) (s : state),
  pc f = PManual ∨ pc f = PDebug → mode_switch s = false →
  ∃ s', main_run (undisturbed <$> envs) f s = Ret f s'
      ∧ shared s' = shared s
      ∧ previous_distance s' = previous_distance s
      ∧ count_events is_sleep (trace s') = count_events is_sleep (trace s)
      ∧ count_events is_close (trace s')
        = (match pc f with PManual => length envs | _ => 0%nat end
           + count_events is_close (trace s))%nat
      ∧ (envs ≠ [] → de_energised s').
Proof.
  induction envs as [|env envs IH]; intros f s Hpc Hsw.
  - exists s. repeat split; [by destruct (pc f)|done].
  - assert (∃ s1, main_block env f s = Ret f s1
              ∧ mode_switch s1 = false ∧ shared s1 = shared s
              ∧ previous_distance s1 = previous_distance s
              ∧ count_events is_sleep (trace s1)
                = count_events is_sleep (trace s)
              ∧ count_events is_close (trace s1)
                = (match pc f with PManual => 1 | _ => 0 end
                   + count_events is_close (trace s))%nat
              ∧ de_energised s1) as (s1 & E1 & Hsw1 & Hs1 & Hp1 & Hsl1 & Hc1 & Hde1).
    { destruct Hpc as [Hpc|Hpc]; eexists;
        (split; [first [by apply manual_block | by apply debug_block]|]);
        rewrite Hpc; repeat split; try done;
        eapply de_energised_levels; [|apply de_energised_cleaned| |
                                     apply de_energised_cleaned]; done. }
    destruct (IH f s1 Hpc Hsw1) as (s' & E & Hs & Hp & Hsl & Hc & Hde).
    exists s'. rewrite (main_run_undisturbed_cons _ _ _ _ _ _ E1), E.
    split; [done|]. split; [congruence|]. split; [congruence|].
    split; [congruence|]. split.
    + rewrite Hc, Hc1. cbn [length]. destruct (pc f); lia.
    + intros _. destruct envs as [|e es]; [|by apply Hde].
      cbn [fmap list_fmap main_run mret M_ret] in E. by injection E as <-.
Qed.

Lemma idle_loops_witness :
  ∃ s', main_run (undisturbed <$> replicate 7 absent)
          (mkFrame PManual false 0) (set_mode_manual true boot)
        = Ret (mkFrame PManual false 0) s'
      ∧ count_events is_close (trace s') = 7%nat
      ∧ count_events is_sleep (trace s') = 0%nat.
Proof.
  destruct (idle_loops (replicate 7 absent) (mkFrame PManual false 0)
              (set_mode_manual true boot))
    as (s' & E & _ & _ & Hsl & Hc & _); [by left|reflexivity|].
  by exists s'.
Defined.

(** ** An aborted sequence *)

Lemma spun_flag b sl todo c s :
  button_pushed (spun b sl todo c s) = button_pushed s.
Proof.
  destruct (shared_fields _ _ (spun_shared b sl todo c s)) as (_ & H & _).
  exact H.
Qed.

(** The turns before the button is pressed. *)
Lemma spin_loop_skip b sl irq : ∀ k todo i c s,
  0 ≤ c < 4 → button_pushed s = false →
  (∀ j, (j < k)%nat → irq (i + j)%nat = 0%nat) →
  spin_loop (k + todo) i c (Some b) sl irq s
  = spin_loop todo (i + k) (Nat.iter k (next_phase b) c) (Some b) sl irq
              (spun b sl k c s).
Proof.
  induction k as [|k IH]; intros todo i c s Hc Hbp Hq.
  - cbn [Nat.add Nat.iter nat_rect spun]. by rewrite Nat.add_0_r.
  - change (S k + todo)%nat with (S (k + todo)).
    rewrite spin_loop_turn, (write_phase_phased c s Hc).
    assert (irq i = 0%nat) as ->
      by (rewrite <- (Hq 0%nat) by lia; f_equal; lia).
    cbn [button_edges mret M_ret phased button_pushed]. rewrite Hbp.
    rewrite IH; [|apply next_phase_range|done|].
    + rewrite Nat.iter_succ_r. cbn [spun].
      by replace (i + S k)%nat with (S i + k)%nat by lia.
    + intros j Hj. replace (S i + j)%nat with (i + S j)%nat by lia.
      apply Hq. lia.
Qed.

(** X13. How far an aborted sequence got.  In a call entered with the flag
    clear in which the button is first pressed during turn [k] of the loop,
    turn [k] has already put its row on the outputs when the flag is seen:
    [k + 1] rows have been driven, in the order of the direction, with [k]
    sleeps between them, while [motor_retract_steps] is set to [k]. *)
Theorem motor_spin_abort_rows (revolutions : Z) (b : bool) (step_sleep : Q)
    (irq : nat → nat) (k : nat) (s : state) :
  is_Some (mode_of s) → button_pushed s = false →
  (k < Z.to_nat (revolutions * step_count))%nat →
  (∀ j, (j < k)%nat → irq j = 0%nat) → irq k ≠ 0%nat →
  ∃ s', motor_spin revolutions (Some b) step_sleep irq s = Ret Broke s'
      ∧ energised (history s')
        = energised (history s)
          ++ map (λ j, phase_pin (phase_at b j)) (seq 0 (S k))
      ∧ count_events is_sleep (trace s')
        = (k + count_events is_sleep (trace s))%nat
      ∧ motor_retract_steps s' = Z.of_nat k.
Proof.
  intros [m Hm] Hbp Hk Hq Hedge. rewrite motor_spin_loop.
  set (s0 := cleaned (set_motor_retract_steps 0 s)).
  destruct (Z.to_nat (revolutions * step_count) - k)%nat as [|todo] eqn:En;
    [lia|].
  replace (Z.to_nat (revolutions * step_count)) with (k + S todo)%nat by lia.
  rewrite spin_loop_skip by (done || lia).
  rewrite spin_loop_turn, write_phase_phased
    by (rewrite iter_next_phase_0; unfold phase_at;
        destruct b; apply Z.mod_pos_bound; lia).
  set (sk := phased _ (spun b step_sleep k 0 s0)).
  assert (mode_of sk = Some m) as Hmk.
  { rewrite <- Hm. subst sk.
    destruct (shared_fields _ _ (spun_shared b step_sleep k 0 s0)) as (H & _).
    exact H. }
  destruct (irq (0 + k)%nat) as [|e] eqn:Ee; [done|].
  destruct (button_edges_spec (S e) sk m Hmk)
    as (s2 & -> & _ & -> & _ & _ & _ & _ & Ht2).
  eexists. split; [reflexivity|].
  cbn [trace motor_retract_steps set_button_pushed set_motor_retract_steps
       cleaned].
  split; [|split; [|done]].
  - change (history (set_button_pushed false
              (set_motor_retract_steps (Z.of_nat (0 + k)) (cleaned s2))))
      with (history (cleaned s2)).
    rewrite history_cleaned, energised_app.
    replace (history s2) with (history sk) by (unfold history; by rewrite Ht2).
    subst sk. rewrite history_phased, energised_app, spun_energised by lia.
    change (history s0) with (history (cleaned s)).
    rewrite history_cleaned, energised_app, seq_S, map_app.
    cbn [map Nat.add]. rewrite <- !app_assoc. f_equal.
    + cbn. rewrite app_nil_r. f_equal.
      * apply map_ext. intros j. by rewrite iter_next_phase_0.
      * rewrite iter_next_phase_0.
        assert (0 ≤ phase_at b k < 4) as Hr
          by (unfold phase_at; destruct b; apply Z.mod_pos_bound; lia).
        assert (phase_at b k = 0 ∨ phase_at b k = 1 ∨ phase_at b k = 2
                ∨ phase_at b k = 3) as [ -> | [ -> | [ -> | -> ] ] ] by lia;
          reflexivity.
  - rewrite !count_events_cons, Ht2. subst sk. cbn [trace phased].
    rewrite !count_events_cons, spun_sleeps. subst s0.
    cbn [trace cleaned set_motor_retract_steps].
    rewrite !count_events_cons. cbn [is_sleep]. lia.
Qed.

Lemma motor_spin_abort_rows_witness :
  ∃ s', motor_spin 1 (Some false) step_sleep_open (edge_at 2) boot
        = Ret Broke s'
      ∧ energised (history s') = [pin_motor_1; pin_motor_2; pin_motor_3]
      ∧ motor_retract_steps s' = 2.
Proof.
  destruct (motor_spin_abort_rows 1 false step_sleep_open (edge_at 2) 2 boot)
    as (s' & E & He & _ & Hr).
  - by exists AUTOMATIC.
  - reflexivity.
  - unfold step_count. lia.
  - intros j Hj. do 2 (destruct j as [|j]; [reflexivity|]). lia.
  - discriminate.
  - by exists s'.
Defined.

(** ** The button *)

Lemma mode_index_iter_from n m :
  mode_index (Nat.iter n next_mode m) = ((mode_index m + n) mod 3)%nat.
Proof.
  induction n as [|n IH].
  - cbn [Nat.iter nat_rect]. rewrite Nat.add_0_r. by destruct m.
  - rewrite Nat.iter_succ, mode_index_next, IH.
    replace (S ((mode_index m + n) mod 3))
      with (1 + (mode_index m + n) mod 3)%nat by done.
    rewrite Nat.Div0.add_mod_idemp_r. f_equal. lia.
Qed.

(** X14. The request flags do not count.  From any of the three modes, [n]
    button edges return from the handler [n] times and move the mode [n]
    places round the cycle, so that three more edges give the same mode;
    for any [n] of one or more both request flags end up set, with no
    trace of how many edges there were; the step count, the baseline, the
    GPIO levels and the log are untouched. *)
Theorem button_edges_from_any_mode (n : nat) (s : state) (m : operating_mode) :
  mode_of s = Some m →
  ∃ s', button_edges n s = Ret tt s'
      ∧ mode_of s' = mode_cycle !! ((mode_index m + n) mod 3)%nat
      ∧ mode_of (final (button_edges (n + 3) s)) = mode_of s'
      ∧ (n ≠ 0%nat → button_pushed s' = true ∧ mode_switch s' = true)
      ∧ motor_retract_steps s' = motor_retract_steps s
      ∧ previous_distance s' = previous_distance s
      ∧ levels s' = levels s
      ∧ trace s' = trace s.
Proof.
  intros Hm.
  destruct (button_edges_spec n s m Hm)
    as (s' & E & Hmode & Hbp & Hsw & Hr & Hd & Hl & Ht).
  destruct (button_edges_spec (n + 3) s m Hm) as (s3 & E3 & Hmode3 & _).
  exists s'. rewrite E3. cbn [final].
  assert (∀ k, Some (Nat.iter k next_mode m)
               = mode_cycle !! ((mode_index m + k) mod 3)%nat) as Hcyc
    by (intros k; by rewrite <- mode_index_iter_from, mode_cycle_index).
  repeat split; try done.
  - by rewrite Hmode, Hcyc.
  - rewrite Hmode3, Hmode, !Hcyc. f_equal.
    replace (mode_index m + (n + 3))%nat with (mode_index m + n + 1 * 3)%nat
      by lia.
    by rewrite Nat.Div0.mod_add.
  - rewrite Hbp. by destruct n.
  - rewrite Hsw. by destruct n.
Qed.

Lemma button_edges_from_any_mode_witness :
  ∃ s', button_edges 5 (pressed boot) = Ret tt s'
      ∧ mode_of s' = Some AUTOMATIC
      ∧ button_pushed s' = true ∧ mode_switch s' = true.
Proof.
  destruct (button_edges_from_any_mode 5 (pressed boot) MANUAL)
    as (s' & E & Hm & _ & Hf & _); [reflexivity|].
  exists s'. destruct Hf as [Hb Hw]; [done|]. by rewrite Hm.
Defined.

(** ** The AUTOMATIC loops *)

(** A turn of the presence-tracking loop: display, sleep, poll, and the
    absence timer set to zero (lines 200-203). *)
Lemma presence_block_poll env t s :
  mode_switch s = false →
  ∃ v s', main_block env (mkFrame PPresence true t) s
          = Ret (mkFrame PAbsence v 0) s'
        ∧ previous_distance s' = echo_cm env
        ∧ shared s' = shared s
        ∧ count_events is_close (trace s') = count_events is_close (trace s)
        ∧ count_events is_sleep (trace s')
          = S (count_events is_sleep (trace s)).
Proof.
  intros Hsw.
  set (s1 := log (ESleep (inject_Z polling_interval_presence))
               (log EOledShow
                  (log (EOledText ubuntu_mono_20 "World!" (Some (15, 20)))
                     (log (EOledText ubuntu_mono_20 "Hello" (Some (15, 0))) s)))).
  destruct (detect_presence_returns env s1)
    as (s' & E & Hp & H1 & H2 & H3 & H4 & H5).
  destruct (detect_presence_trace env s1) as (Hc & Hsl).
  rewrite E in Hc, Hsl. cbn [final] in Hc, Hsl.
  eexists _, s'. split.
  - unfold main_block. run. rewrite Hsw. run. fold s1. by rewrite E.
  - split; [done|].
    split; [unfold shared; rewrite H1, H2, H3, H4, H5; reflexivity|].
    rewrite Hc, Hsl. subst s1. cbn [trace log].
    by rewrite !count_events_cons.
Qed.

(** X15. Presence seen again forgets the elapsed absence.  When a poll of
    the absence-timing loop has detected presence, whatever the elapsed
    time [t] (also at [action_after_seconds] or beyond), with no request
    pending and the button not pressed, the loop is left without the close
    message and the next turn of the presence-tracking loop sleeps once,
    polls once and restarts the absence timer at zero. *)
Theorem presence_resets_timer (env env' : sensors) (t : Z) (s : state) :
  mode_switch s = false →
  ∃ v s', main_run [undisturbed env; undisturbed env']
            (mkFrame PAbsence true t) s
          = Ret (mkFrame PAbsence v 0) s'
        ∧ previous_distance s' = echo_cm env'
        ∧ shared s' = shared s
        ∧ count_events is_close (trace s') = count_events is_close (trace s)
        ∧ count_events is_sleep (trace s')
          = S (count_events is_sleep (trace s)).
Proof.
  intros Hsw.
  destruct (presence_block_poll env' t s Hsw) as (v & s' & E & H).
  exists v, s'. split; [|exact H].
  change [undisturbed env; undisturbed env']
    with (undisturbed <$> [env; env']).
  rewrite (main_run_undisturbed_cons env [env'] (mkFrame PAbsence true t) s
             (mkFrame PPresence true t) s) by done.
  by rewrite (main_run_undisturbed_cons env' [] _ _ _ _ E).
Qed.

Lemma presence_resets_timer_witness :
  ∃ v s', main_run [undisturbed present; undisturbed absent]
            (mkFrame PAbsence true 60) boot
          = Ret (mkFrame PAbsence v 0) s'
        ∧ count_events is_close (trace s') = 0%nat.
Proof.
  destruct (presence_resets_timer present absent 60 boot)
    as (v & s' & E & _ & _ & Hc & _); [reflexivity|].
  by exists v, s'.
Defined.

(** X16. Standby.  In AUTOMATIC mode with nobody seen at the poll, one
    round of [main] takes five blocks from the top of the dispatcher back
    to it: the outputs are forced low, the sensors are polled once and the
    only sleep is [polling_interval_standby].  The round does not look at
    [mode_switch]: the shared variables are as before. *)
Theorem standby_round (env : sensors) (s : state) :
  mode_of s = Some AUTOMATIC →
  adc_u16 env ≤ brightness_threshold →
  (Qabs (echo_cm env - previous_distance s) <= inject_Z motion_threshold)%Q →
  ∃ s', main_run (undisturbed <$> replicate 5 env) main_entry s
        = Ret main_entry s'
      ∧ shared s' = shared s
      ∧ previous_distance s' = echo_cm env
      ∧ de_energised s'
      ∧ slept (trace s') == inject_Z polling_interval_standby + slept (trace s)
      ∧ count_events is_close (trace s') = count_events is_close (trace s).
Proof.
  intros Hm Hb Hd.
  set (s1 := log EOledPoweroff (cleaned s)).
  destruct (detect_presence_unseen env s1 Hb Hd) as (s2 & E & Hp & Hs).
  destruct (detect_presence_logs env s1) as [v Ht]. rewrite E in Ht.
  cbn [final] in Ht.
  assert (mode_debug s = false ∧ mode_manual s = false) as [Hdb Hmn]
    by (revert Hm; unfold mode_of; by destruct (mode_debug s), (mode_manual s)).
  destruct (shared_fields _ _ Hs) as (Hm2 & _).
  assert (mode_debug s2 = false ∧ mode_manual s2 = false) as [Hdb2 Hmn2].
  { revert Hs. unfold shared. subst s1.
    cbn [mode_debug mode_manual log cleaned]. rewrite Hdb, Hmn.
    by intros [= -> -> _ _ _]. }
  assert (main_block env main_entry s = Ret (mkFrame PPresence false 0) s2)
    as E1.
  { unfold main_block. cbn [pc main_entry].
    rewrite (bind_Ret _ _ _ _ _ (motor_cleanup_cleaned s)).
    run. rewrite Hdb, Hmn. run. fold s1. by rewrite E. }
  set (s3 := log (ESleep (inject_Z polling_interval_standby)) s2).
  assert (main_run (undisturbed <$> [env; env; env; env])
            (mkFrame PPresence false 0) s2 = Ret main_entry s3) as E2.
  {
    rewrite (main_run_undisturbed_cons env _ _ _ (mkFrame PStandby false 0) s2)
      by done.
    rewrite (main_run_undisturbed_cons env _ _ _ (mkFrame PManualIf false 0) s3)
      by done.
    rewrite (main_run_undisturbed_cons env _ _ _ (mkFrame PDebugIf false 0) s3)
      by (unfold main_block; run; subst s3; cbn [mode_debug mode_manual log];
          by rewrite Hdb2, Hmn2).
    rewrite (main_run_undisturbed_cons env _ _ _ main_entry s3)
      by (unfold main_block; run; subst s3; cbn [mode_debug mode_manual log];
          by rewrite Hdb2, Hmn2).
    done. }
  exists s3. change (replicate 5 env) with [env; env; env; env; env].
  rewrite (main_run_undisturbed_cons env _ _ _ _ _ E1), E2.
  split; [done|]. split; [exact Hs|]. split; [exact Hp|].
  split; [|split].
  - intros p Hpin. subst s3. cbn [levels log].
    destruct (main_block_levels env main_entry s) as [_ Htop].
    rewrite E1 in Htop. cbn [final] in Htop.
    assert (levels (cleaned s) !! p = Some false) as Hc
      by (by apply de_energised_cleaned).
    destruct (Htop eq_refl) as [ -> | -> ]; rewrite ?low_triggered by done;
      done.
  - subst s3. cbn [trace log slept]. rewrite Ht. subst s1.
    cbn [trace log cleaned slept]. reflexivity.
  - subst s3. cbn [trace log]. rewrite Ht, !count_events_cons. subst s1.
    cbn [trace log cleaned]. rewrite !count_events_cons. by destruct v.
Qed.

Lemma standby_round_witness :
  ∃ s', main_run (undisturbed <$> replicate 5 absent) main_entry boot
        = Ret main_entry s'
      ∧ de_energised s'
      ∧ previous_distance s' = inject_Z 165.
Proof.
  destruct (standby_round absent boot) as (s' & E & _ & Hp & Hde & _).
  - reflexivity.
  - done.
  - apply Qabs_Qle_condition. split; by vm_compute.
  - by exists s'.
Defined.

(** ** Handing over to the next mode *)




Lemma main_run_cons inp inps f s f1 s1 :
  main_step inp f s = Ret f1 s1 →
  main_run (inp :: inps) f s = main_run inps f1 s1.
Proof. intros E. cbn [main_run]. by rewrite (bind_Ret _ _ _ _ _ E). Qed.

(** X18. How long a press waits.  The button pressed, once or more, during
    a turn of the presence-tracking loop (its display, its sleep or its
    poll) is seen at the next loop test: whatever that poll and the later
    readings give, both loops are left within the two blocks that follow,
    with no sleep but the one of the turn in which the button was pressed,
    no further poll and no close message; the mode has moved one place per
    edge. *)
Theorem switch_latency (env env1 env2 : sensors) (e : nat) (t : Z)
    (s : state) (m : operating_mode) :
  mode_of s = Some m → mode_switch s = false →
  ∃ v s', main_run [mkInput env (S e); undisturbed env1; undisturbed env2]
            (mkFrame PPresence true t) s
          = Ret (mkFrame PStandby v 0) s'
        ∧ count_events is_sleep (trace s')
          = S (count_events is_sleep (trace s))
        ∧ count_events is_close (trace s') = count_events is_close (trace s)
        ∧ previous_distance s' = echo_cm env
        ∧ mode_of s' = Some (Nat.iter (S e) next_mode m)
        ∧ mode_switch s' = negb v.
Proof.
  intros Hm Hsw.
  destruct (presence_block_poll env t s Hsw)
    as (v & s1 & E1 & Hp1 & Hs1 & Hc1 & Hsl1).
  destruct (shared_fields _ _ Hs1) as (Hm1 & _).
  rewrite Hm in Hm1.
  destruct (button_edges_spec (S e) s1 m Hm1)
    as (s2 & E2 & Hm2 & _ & Hsw2 & _ & Hp2 & _ & Ht2).
  exists v, (set_mode_switch (negb v) s2).
  split.
  - assert (main_step (mkInput env (S e)) (mkFrame PPresence true t) s
            = Ret (mkFrame PAbsence v 0) s2) as Es.
    { unfold main_step. cbn [readings edges].
      rewrite (bind_Ret _ _ _ _ _ E1). by rewrite (bind_Ret _ _ _ _ _ E2). }
    rewrite (main_run_cons _ _ _ _ _ _ Es). by apply absence_leave.
  - cbn [trace set_mode_switch previous_distance mode_switch].
    rewrite Ht2, Hp2. by repeat split.
Qed.

Lemma switch_latency_witness :
  ∃ v s', main_run [mkInput present 2; undisturbed absent; undisturbed absent]
            (mkFrame PPresence true 0) boot
          = Ret (mkFrame PStandby v 0) s'
        ∧ mode_of s' = Some DEBUG
        ∧ count_events is_sleep (trace s') = 1%nat.
Proof.
  destruct (switch_latency present absent absent 1 0 boot AUTOMATIC)
    as (v & s' & E & Hsl & _ & _ & Hm & _); [reflexivity|reflexivity|].
  by exists v, s'.
Defined.


(** ** A press made while the motor is at rest *)

(** C5, on the code.  The flag is not cleared at the start of an
    actuation.  A button edge taken in any of the three modes while no
    sequence is running sets [button_pushed]; the initialisation of the
    next [motor_spin] (lines 161-164) leaves it set, so that the call,
    undisturbed by the button, breaks at the test of its first turn: one
    row of the phase table is driven instead of
    [revolutions * step_count], without a sleep, and
    [motor_retract_steps] is 0. *)
Theorem idle_press_aborts_next_actuation (revolutions : Z) (b : bool)
    (step_sleep : Q) (s : state) (m : operating_mode) :
  mode_of s = Some m → 0 < revolutions →
  ∃ s1 s', button_interrupt s = Ret tt s1
         ∧ button_pushed (final (motor_spin_init s1)) = true
         ∧ motor_spin revolutions (Some b) step_sleep quiet s1 = Ret Broke s'
         ∧ motor_retract_steps s' = 0
         ∧ energised (history s') = energised (history s) ++ [pin_motor_1]
         ∧ count_events is_sleep (trace s')
           = count_events is_sleep (trace s).
Proof.
  intros Hm Hrev. exists (pressed s).
  rewrite button_interrupt_pressed by (by exists m).
  rewrite motor_spin_init_cleaned, motor_spin_loop.
  destruct (Z.to_nat (revolutions * step_count)) as [|todo] eqn:En;
    [unfold step_count in En; lia|].
  clear En Hrev.
  rewrite spin_loop_turn, write_phase_0.
  cbn [quiet button_edges mret M_ret button_pushed phase_0 cleaned
       set_motor_retract_steps pressed].
  eexists. split; [reflexivity|]. split; [reflexivity|].
  split; [reflexivity|]. split; [reflexivity|]. split.
  - change (history (set_button_pushed false (set_motor_retract_steps
              (Z.of_nat 0) (cleaned (phase_0 (cleaned
                 (set_motor_retract_steps 0 (pressed s))))))))
      with (history (cleaned (phase_0 (cleaned s)))).
    rewrite history_cleaned, history_phase_0, history_cleaned, !energised_app.
    cbn. by rewrite !app_nil_r.
  - cbn [trace set_button_pushed set_motor_retract_steps cleaned phase_0
         pressed].
    by rewrite !count_events_cons.
Qed.

Lemma idle_press_aborts_next_actuation_witness :
  ∃ s1 s', button_interrupt boot = Ret tt s1
         ∧ button_pushed (final (motor_spin_init s1)) = true
         ∧ motor_spin 1 (Some false) step_sleep_close quiet s1 = Ret Broke s'
         ∧ motor_retract_steps s' = 0
         ∧ energised (history s') = [pin_motor_1].
Proof.
  destruct (idle_press_aborts_next_actuation 1 false step_sleep_close boot
              AUTOMATIC)
    as (s1 & s' & E1 & Hb & E & Hr & He & _); [reflexivity|lia|].
  by exists s1, s'.
Defined.
